(** * Answer evaluation and scoring engine

    A shallow embedding of [models/answer_evaluator.py] (class
    [AnswerEvaluator]), of the similarity functions of
    [models/nlp_processor.py] (class [NLPProcessor]) and of
    [_calculate_grade] from [api/routes/evaluation_routes.py], followed by
    the properties the specification states about them.

    Modelling conventions.
    - Python [str] is [string]; the text is 7-bit: [upper], [lower],
      [isspace] and the regular-expression classes act on ASCII code
      points as CPython does, and leave codes above 127 alone.
    - Python numbers ([int] and [float]) are rationals [Q]: the arithmetic
      is exact, binary rounding error of [float] is not modelled.  The
      built-in [round(x, 1)] is rounding of [10 * x] to the nearest
      integer, ties to even, divided by ten.
    - A question is a [dict] read only through [.get(key, default)]; it is
      a record of optional fields.
    - [set] is stdpp's [gset]. *)

From Stdlib Require Import Ascii String QArith Qround Qabs Qminmax ZArith Lia ZifyBool Lqa.
From stdpp Require Import base option strings gmap list sorting.

(** ** Text primitives of Python's [str] *)

Module PyStr.

Definition code (c : ascii) : nat := nat_of_ascii c.

(** [str.isspace] on one ASCII character: TAB, LF, VT, FF, CR, the four
    separators FS, GS, RS, US, and the space. *)
Definition isspace (c : ascii) : bool :=
  ((9 <=? code c) && (code c <=? 13))%nat
  || ((28 <=? code c) && (code c <=? 32))%nat.

Definition is_lower (c : ascii) : bool := ((97 <=? code c) && (code c <=? 122))%nat.
Definition is_upper (c : ascii) : bool := ((65 <=? code c) && (code c <=? 90))%nat.
Definition is_digit (c : ascii) : bool := ((48 <=? code c) && (code c <=? 57))%nat.
Definition is_letter (c : ascii) : bool := is_lower c || is_upper c.

Definition char_upper (c : ascii) : ascii :=
  if is_lower c then ascii_of_nat (code c - 32) else c.
Definition char_lower (c : ascii) : ascii :=
  if is_upper c then ascii_of_nat (code c + 32) else c.

Fixpoint map_chars (f : ascii -> ascii) (s : string) : string :=
  match s with
  | EmptyString => EmptyString
  | String c s' => String (f c) (map_chars f s')
  end.

(** [s.upper()] and [s.lower()] *)
Definition upper : string -> string := map_chars char_upper.
Definition lower : string -> string := map_chars char_lower.

Fixpoint all_chars (p : ascii -> bool) (s : string) : bool :=
  match s with
  | EmptyString => true
  | String c s' => p c && all_chars p s'
  end.

Fixpoint lstrip (s : string) : string :=
  match s with
  | EmptyString => EmptyString
  | String c s' => if isspace c then lstrip s' else s
  end.

Fixpoint rstrip (s : string) : string :=
  match s with
  | EmptyString => EmptyString
  | String c s' =>
      match rstrip s' with
      | EmptyString => if isspace c then EmptyString else String c EmptyString
      | r => String c r
      end
  end.

(** [s.strip()] *)
Definition strip (s : string) : string := rstrip (lstrip s).

(** [s.split()]: the maximal runs of characters that are not white
    space; [cur] is the run being read. *)
Fixpoint split_go (cur : string) (s : string) : list string :=
  match s with
  | EmptyString => if String.eqb cur "" then [] else [cur]
  | String c s' =>
      if isspace c then
        if String.eqb cur "" then split_go "" s' else cur :: split_go "" s'
      else split_go (cur +:+ String c "") s'
  end.

Definition split (s : string) : list string := split_go "" s.

(** [re.split(r'[...]+', s)] for a character class [sep]: the text is cut
    at every maximal run of separators; the pieces before the first and
    after the last run are kept even when empty. *)
Fixpoint re_split_go (sep : ascii -> bool) (in_run : bool)
         (cur : string) (s : string) : list string :=
  match s with
  | EmptyString => [cur]
  | String c s' =>
      if sep c then
        if in_run then re_split_go sep true "" s'
        else cur :: re_split_go sep true "" s'
      else re_split_go sep false (cur +:+ String c "") s'
  end.

Definition re_split (sep : ascii -> bool) (s : string) : list string :=
  re_split_go sep false "" s.

(** [needle in hay] *)
Fixpoint contains (needle hay : string) : bool :=
  String.prefix needle hay ||
  match hay with
  | EmptyString => false
  | String _ hay' => contains needle hay'
  end.

(** [sep.join(parts)] *)
Fixpoint join (sep : string) (parts : list string) : string :=
  match parts with
  | [] => ""
  | [p] => p
  | p :: rest => p +:+ sep +:+ join sep rest
  end.

End PyStr.

(** ** Numbers *)

Open Scope Q_scope.

Definition Qnat (n : nat) : Q := inject_Z (Z.of_nat n).

(** Nearest integer, ties to the even neighbour. *)
Definition round_half_even (x : Q) : Z :=
  let f := Qfloor x in
  match Qcompare (x - inject_Z f) (1 # 2) with
  | Lt => f
  | Gt => (f + 1)%Z
  | Eq => if Z.even f then f else (f + 1)%Z
  end.

(** [round(x, 1)] *)
Definition round1 (x : Q) : Q := inject_Z (round_half_even (x * 10)) / 10.

(** ** [NLPProcessor]: the similarity functions *)

Module NLP.

(** The class [\w] of [re] on ASCII text. *)
Definition is_word (c : ascii) : bool :=
  PyStr.is_letter c || PyStr.is_digit c || (PyStr.code c =? 95)%nat.

(** [_tokenize]: [re.sub(r'[^\w\s]', ' ', text).split()] *)
Definition _tokenize (text : string) : list string :=
  let text :=
    PyStr.map_chars
      (fun c => if is_word c || PyStr.isspace c then c else " "%char) text in
  PyStr.split text.

(** [_simple_similarity]: the Jaccard index of the two word sets. *)
Definition _simple_similarity (text1 text2 : string) : Q :=
  let words1 : gset string := list_to_set (_tokenize (PyStr.lower text1)) in
  let words2 : gset string := list_to_set (_tokenize (PyStr.lower text2)) in
  if bool_decide (words1 = ∅) || bool_decide (words2 = ∅) then 0
  else
    let intersection := words1 ∩ words2 in
    let union := words1 ∪ words2 in
    Qnat (size intersection) / Qnat (size union).

(** What [float(similarity)] can be: a number, or NumPy's [nan] or
    [inf] after a division by a zero norm (NumPy warns there, it does
    not raise). *)
Inductive pyfloat : Type :=
| Finite (q : Q)
| NotFinite.

(** [embeddings_model.encode(texts)]: one vector per text, or [None]
    when the call raises. *)
Definition Encoder : Type := list string -> option (list (list Q)).

Section Embeddings.

(** The square root behind [np.linalg.norm]. *)
Variable sqrt : Q -> Q.

(** [np.dot] of two vectors; it raises when the shapes differ. *)
Definition dot (u v : list Q) : option Q :=
  if (length u =? length v)%nat
  then Some (fold_left Qplus (zip_with Qmult u v) 0)
  else None.

Definition norm (v : list Q) : Q :=
  sqrt (fold_left Qplus (zip_with Qmult v v) 0).

(** [calculate_similarity]; [embeddings_model] is the field set by
    [_initialize_models], [None] when the model could not be loaded.
    Every exception of the [try] block leads to the fallback. *)
Definition calculate_similarity (embeddings_model : option Encoder)
           (text1 text2 : string) : pyfloat :=
  match embeddings_model with
  | None => Finite (_simple_similarity text1 text2)
  | Some model =>
      match model [text1; text2] with
      | Some embeddings =>
          match embeddings !! 0%nat, embeddings !! 1%nat with
          | Some e0, Some e1 =>
              match dot e0 e1 with
              | Some d =>
                  let n := norm e0 * norm e1 in
                  if Qeq_bool n 0 then NotFinite else Finite (d / n)
              | None => Finite (_simple_similarity text1 text2)
              end
          | _, _ => Finite (_simple_similarity text1 text2)
          end
      | None => Finite (_simple_similarity text1 text2)
      end
  end.

End Embeddings.

(** [_load_stopwords] *)
Definition stopwords : gset string :=
  list_to_set
    ["a"; "an"; "the"; "and"; "or"; "but"; "in"; "on"; "at"; "to"; "for";
     "of"; "with"; "by"; "from"; "as"; "is"; "was"; "are"; "were"; "been";
     "be"; "have"; "has"; "had"; "do"; "does"; "did"; "will"; "would";
     "could"; "should"; "may"; "might"; "must"; "shall"; "can"; "this";
     "that"; "these"; "those"; "it"; "its"; "they"; "them"; "their"; "what";
     "which"; "who"; "whom"; "whose"; "when"; "where"; "why"; "how"; "all";
     "each"; "every"; "both"; "few"; "more"; "most"; "other"; "some"; "such";
     "no"; "nor"; "not"; "only"; "own"; "same"; "so"; "than"; "too"; "very";
     "just"; "also"].

(** [word_freq[word] = word_freq.get(word, 0) + 1] on a [dict], which keeps
    its keys in the order of their first insertion. *)
Fixpoint bump (word : string) (word_freq : list (string * nat))
  : list (string * nat) :=
  match word_freq with
  | [] => [(word, 1%nat)]
  | (k, n) :: rest =>
      if String.eqb k word then (k, S n) :: rest else (k, n) :: bump word rest
  end.

(** [sorted(items, key=lambda x: x[1], reverse=True)]: the sort is stable,
    items of equal frequency keep their order. *)
Fixpoint insert_by_freq (x : string * nat) (l : list (string * nat))
  : list (string * nat) :=
  match l with
  | [] => [x]
  | y :: l' =>
      if (snd x <? snd y)%nat then y :: insert_by_freq x l' else x :: l
  end.

Definition sorted_by_freq (items : list (string * nat))
  : list (string * nat) :=
  fold_right insert_by_freq [] items.

(** The slice [l[:stop]]; a negative [stop] counts from the end. *)
Definition slice_to {A : Type} (l : list A) (stop : Z) : list A :=
  if (0 <=? stop)%Z then take (Z.to_nat stop) l
  else take (length l - Z.to_nat (- stop)) l.

(** The words [extract_keywords] counts: the tokens that are no stopword
    and have more than two characters. *)
Definition content_words (text : string) : list string :=
  filter (fun w => (PyStr.lower w ∉ stopwords) /\ (2 < String.length w)%nat)
         (_tokenize text).

(** [extract_keywords] *)
Definition extract_keywords (text : string) (max_keywords : Z)
  : list string :=
  let words := content_words text in
  let word_freq :=
    fold_left (fun word_freq word => bump (PyStr.lower word) word_freq)
              words [] in
  let sorted_words := sorted_by_freq word_freq in
  map fst (slice_to sorted_words max_keywords).

End NLP.

(** ** The data model *)

(** The question [dict]; a field is [None] when the key is absent. *)
Record Question : Type := {
  question_type : option string;
  question_text : option string;
  options : option (list string);
  correct_answer : option string;
  expected_answer : option string;
  key_points : option (list string);
  marks : option Q;
  explanation : option string
}.

(** The keys of the result that depend on the question type. *)
Inductive Details : Type :=
| McqDetails (correct_answer student_answer explanation : string)
| ShortAnswerDetails (semantic_similarity key_points_coverage : Q)
                     (missing_points : list string)
| DescriptiveDetails (detailed_scores : list (string * Q))
                     (missing_points : list string)
                     (improvement_suggestions : list string).

(** The result [dict] of the three graders. *)
Record ScoreResult : Type := {
  result_type : string;
  is_correct : bool;
  marks_obtained : Q;
  max_marks : Q;
  percentage : Q;
  feedback : string;
  details : Details
}.

(** What [evaluate_answer] returns: a score, or the [dict] with the single
    key ['error']. *)
Inductive Outcome : Type :=
| Score (r : ScoreResult)
| Error (message : string).

(** [d[key]] for a [dict] written as a literal, in insertion order. *)
Fixpoint item (d : list (string * Q)) (key : string) : Q :=
  match d with
  | [] => 0
  | (k, v) :: d' => if String.eqb k key then v else item d' key
  end.

(** ** [AnswerEvaluator] *)

Section AnswerEvaluator.

(** [self.nlp_processor.calculate_similarity], the injected
    similarity. *)
Variable calculate_similarity : string -> string -> Q.

(** [self.similarity_threshold] *)
Definition similarity_threshold : list (string * Q) :=
  [("SHORT_ANSWER", 0.6); ("DESCRIPTIVE", 0.5)].

Definition _evaluate_mcq (question : Question) (student_answer : string)
  : ScoreResult :=
  let correct_answer :=
    PyStr.strip (PyStr.upper (default "" (correct_answer question))) in
  let student_answer := PyStr.strip (PyStr.upper student_answer) in
  let is_correct := String.eqb student_answer correct_answer in
  let max_marks := default 1 (marks question) in
  {| result_type := "MCQ";
     is_correct := is_correct;
     marks_obtained := if is_correct then max_marks else 0;
     max_marks := max_marks;
     percentage := if is_correct then 100 else 0;
     feedback :=
       if is_correct then "Correct!"
       else "Incorrect. The correct answer is " +:+ correct_answer +:+ ".";
     details :=
       McqDetails correct_answer student_answer
                  (default "" (explanation question)) |}.

(** [_check_key_points]: the loop over [key_points] keeps the counter
    [covered]. *)
Definition _check_key_points (answer : string) (key_points : list string)
  : Q :=
  match key_points with
  | [] => 1
  | _ =>
      let answer_lower := PyStr.lower answer in
      let covered :=
        fold_left
          (fun (covered : nat) (point : string) =>
             let point_words : gset string :=
               list_to_set (PyStr.split (PyStr.lower point)) in
             if existsb (fun word => PyStr.contains word answer_lower)
                  (filter (fun word => (3 < String.length word)%nat)
                          (elements point_words))
             then S covered else covered)
          key_points 0%nat in
      Qnat covered / Qnat (length key_points)
  end.

(** [_check_length_adequacy] *)
Definition min_words : list (string * nat) :=
  [("SHORT_ANSWER", 20%nat); ("DESCRIPTIVE", 100%nat)].
Definition max_words : list (string * nat) :=
  [("SHORT_ANSWER", 100%nat); ("DESCRIPTIVE", 500%nat)].

(** [d.get(key, default)] *)
Fixpoint get (d : list (string * nat)) (key : string) (dflt : nat) : nat :=
  match d with
  | [] => dflt
  | (k, v) :: d' => if String.eqb k key then v else get d' key dflt
  end.

Definition _check_length_adequacy (answer : string) (question_type : string)
  : Q :=
  let word_count := length (PyStr.split answer) in
  let min_w := get min_words question_type 20 in
  let max_w := get max_words question_type 200 in
  if (word_count <? min_w)%nat then Qnat word_count / Qnat min_w
  else if (max_w <? word_count)%nat then
    Qmax 0.5 (1 - (Qnat word_count - Qnat max_w) / Qnat max_w)
  else 1.

(** [_check_coherence] *)
Definition sentence_end (c : ascii) : bool :=
  bool_decide (c = "."%char) || bool_decide (c = "!"%char)
  || bool_decide (c = "?"%char).

Definition _check_coherence (answer : string) : Q :=
  let sentences := PyStr.re_split sentence_end answer in
  let sentences :=
    map PyStr.strip
        (filter (fun s => PyStr.strip s ≠ "") sentences) in
  if (length sentences <? 2)%nat then 0.5
  else
    let valid_sentences :=
      length (filter (fun s => (3 <= length (PyStr.split s))%nat) sentences) in
    Qnat valid_sentences / Qnat (length sentences).

(** [_get_missing_points]: the loop appends to [missing]. *)
Definition _get_missing_points (answer : string) (key_points : list string)
  : list string :=
  let answer_lower := PyStr.lower answer in
  fold_left
    (fun (missing : list string) (point : string) =>
       let point_words : gset string :=
         list_to_set (PyStr.split (PyStr.lower point)) in
       if negb (existsb (fun word => PyStr.contains word answer_lower)
                  (filter (fun word => (3 < String.length word)%nat)
                          (elements point_words)))
       then missing ++ [point] else missing)
    key_points [].

(** [_generate_feedback] *)
Definition _generate_feedback (score : Q) (key_points : list string)
           (key_points_score : Q) : string :=
  if Qle_bool 0.8 score then
    "Excellent answer! You've covered the topic comprehensively."
  else if Qle_bool 0.6 score then
    "Good answer. Consider adding more details about the key concepts."
  else if Qle_bool 0.4 score then
    "Satisfactory answer. Try to cover more key points and provide examples."
  else
    "Answer needs improvement. Review the topic and include main concepts.".

Definition Qlt_bool (x y : Q) : bool := negb (Qle_bool y x).

(** [_generate_detailed_feedback] *)
Definition _generate_detailed_feedback (scores : list (string * Q))
           (key_points : list string) : string :=
  let feedback_parts :=
    (if Qlt_bool (item scores "semantic_similarity") 0.5
     then ["Your answer needs to focus more on the main topic."] else [])
    ++ (if Qlt_bool (item scores "key_points_coverage") 0.6
        then ["Try to cover more key points in your answer."] else [])
    ++ (if Qlt_bool (item scores "length_adequacy") 0.7
        then ["Consider providing more detailed explanations."] else [])
    ++ (if Qlt_bool (item scores "coherence") 0.7
        then ["Improve the structure and flow of your answer."] else []) in
  match feedback_parts with
  | [] => "Excellent work! Your answer is comprehensive and well-structured."
  | _ => PyStr.join " " feedback_parts
  end.

(** [_get_improvement_suggestions] *)
Definition _get_improvement_suggestions (scores : list (string * Q))
  : list string :=
  (if Qlt_bool (item scores "key_points_coverage") 0.6
   then ["Include all key concepts mentioned in the lesson"] else [])
  ++ (if Qlt_bool (item scores "length_adequacy") 0.7
      then ["Provide more detailed explanations with examples"] else [])
  ++ (if Qlt_bool (item scores "coherence") 0.7
      then ["Use clear paragraph structure with topic sentences"] else []).

(** The combined score of [_evaluate_short_answer]. *)
Definition short_answer_combined (similarity key_points_score : Q) : Q :=
  (similarity * 0.6) + (key_points_score * 0.4).

Definition _evaluate_short_answer (question : Question)
           (student_answer : string) : ScoreResult :=
  let expected_answer := default "" (expected_answer question) in
  let key_points := default [] (key_points question) in
  let max_marks := default 3 (marks question) in
  let similarity := calculate_similarity student_answer expected_answer in
  let key_points_score := _check_key_points student_answer key_points in
  let combined_score := short_answer_combined similarity key_points_score in
  let marks_obtained := round1 (combined_score * max_marks) in
  let percentage := round1 (combined_score * 100) in
  let feedback :=
    _generate_feedback combined_score key_points key_points_score in
  {| result_type := "SHORT_ANSWER";
     is_correct :=
       Qle_bool (item similarity_threshold "SHORT_ANSWER") combined_score;
     marks_obtained := marks_obtained;
     max_marks := max_marks;
     percentage := percentage;
     feedback := feedback;
     details :=
       ShortAnswerDetails
         (round1 (similarity * 100))
         (round1 (key_points_score * 100))
         (_get_missing_points student_answer key_points) |}.

(** The four criteria of [_evaluate_descriptive], in the order of the
    [dict] literal. *)
Definition descriptive_scores (student_answer expected_answer : string)
           (key_points : list string) : list (string * Q) :=
  [("semantic_similarity",
     calculate_similarity student_answer expected_answer);
   ("key_points_coverage", _check_key_points student_answer key_points);
   ("length_adequacy", _check_length_adequacy student_answer "DESCRIPTIVE");
   ("coherence", _check_coherence student_answer)].

Definition weights : list (string * Q) :=
  [("semantic_similarity", 0.4); ("key_points_coverage", 0.3);
   ("length_adequacy", 0.15); ("coherence", 0.15)].

(** [sum(scores[k] * weights[k] for k in scores)] *)
Definition descriptive_combined (scores : list (string * Q)) : Q :=
  fold_left (fun acc k => acc + item scores k * item weights k)
            (map fst scores) 0.

Definition _evaluate_descriptive (question : Question)
           (student_answer : string) : ScoreResult :=
  let expected_answer := default "" (expected_answer question) in
  let key_points := default [] (key_points question) in
  let max_marks := default 5 (marks question) in
  let scores := descriptive_scores student_answer expected_answer key_points in
  let combined_score := descriptive_combined scores in
  let marks_obtained := round1 (combined_score * max_marks) in
  let percentage := round1 (combined_score * 100) in
  {| result_type := "DESCRIPTIVE";
     is_correct :=
       Qle_bool (item similarity_threshold "DESCRIPTIVE") combined_score;
     marks_obtained := marks_obtained;
     max_marks := max_marks;
     percentage := percentage;
     feedback := _generate_detailed_feedback scores key_points;
     details :=
       DescriptiveDetails
         (map (fun kv => (fst kv, round1 (snd kv * 100))) scores)
         (_get_missing_points student_answer key_points)
         (_get_improvement_suggestions scores) |}.

(** [evaluate_answer] *)
Definition evaluate_answer (question : Question) (student_answer : string)
  : Outcome :=
  let question_type := default "MCQ" (question_type question) in
  if String.eqb question_type "MCQ" then
    Score (_evaluate_mcq question student_answer)
  else if String.eqb question_type "SHORT_ANSWER" then
    Score (_evaluate_short_answer question student_answer)
  else if String.eqb question_type "DESCRIPTIVE" then
    Score (_evaluate_descriptive question student_answer)
  else Error ("Unknown question type: " +:+ question_type).

End AnswerEvaluator.

(** ** [_calculate_grade] of the evaluation routes *)

Definition _calculate_grade (percentage : Q) : string :=
  if Qle_bool 90 percentage then "A+"
  else if Qle_bool 85 percentage then "A"
  else if Qle_bool 80 percentage then "A-"
  else if Qle_bool 75 percentage then "B+"
  else if Qle_bool 70 percentage then "B"
  else if Qle_bool 65 percentage then "B-"
  else if Qle_bool 60 percentage then "C+"
  else if Qle_bool 55 percentage then "C"
  else if Qle_bool 50 percentage then "C-"
  else if Qle_bool 45 percentage then "D+"
  else if Qle_bool 40 percentage then "D"
  else "F".

(** ** The evaluation routes *)

(** One entry of the request's [answers]; a field is [None] when the key is
    absent. *)
Record AnswerData : Type := {
  answer_question_idx : option Z;
  answer_text : option string
}.

(** One entry of the response's [results]. *)
Record ResultEntry : Type := {
  entry_question_idx : Z;
  entry_question_text : string;
  entry_student_answer : string;
  entry_evaluation : Outcome
}.

Record Summary : Type := {
  total_marks : Q;
  summary_marks_obtained : Q;
  summary_percentage : Q;
  grade : string;
  questions_correct : nat;
  total_questions : nat
}.

(** The JSON response: the success body, or an error with its HTTP
    status. *)
Inductive Response : Type :=
| Success (results : list ResultEntry) (summary : Summary)
| Failure (status : nat) (error : string).

(** [evaluation.get('max_marks', 0)], [evaluation.get('marks_obtained', 0)]
    and [evaluation.get('is_correct', False)]: the error [dict] has none of
    these keys. *)
Definition get_max_marks (evaluation : Outcome) : Q :=
  match evaluation with Score r => max_marks r | Error _ => 0 end.
Definition get_marks_obtained (evaluation : Outcome) : Q :=
  match evaluation with Score r => marks_obtained r | Error _ => 0 end.
Definition get_is_correct (evaluation : Outcome) : bool :=
  match evaluation with Score r => is_correct r | Error _ => false end.

(** [question_lookup = {i: q for i, q in enumerate(questions)}], read at
    [question_idx]. *)
Definition question_lookup (questions : list Question) (question_idx : Z)
  : option Question :=
  if (0 <=? question_idx)%Z then questions !! Z.to_nat question_idx else None.

(** The batch request's entries and the batch response's entries. *)
Record Submission : Type := {
  submission_questions : list Question;
  submission_answers : list AnswerData;
  student_id : option string
}.

Record SubmissionResult : Type := {
  result_student_id : option string;
  submission_results : list Outcome;
  submission_total_marks : Q;
  submission_marks_obtained : Q;
  submission_percentage : Q;
  submission_grade : string
}.

Section Routes.

(** The similarity of the evaluator that [get_answer_evaluator] returns. *)
Variable calculate_similarity : string -> string -> Q.

(** The body of the loop of [evaluate_submission]; the state is [results],
    [total_marks] and [marks_obtained]. *)
Definition grade_answer (questions : list Question)
           (state : list ResultEntry * Q * Q) (answer_data : AnswerData)
  : list ResultEntry * Q * Q :=
  let '(results, total_marks, marks_obtained) := state in
  let question_idx := default 0%Z (answer_question_idx answer_data) in
  let student_answer := default "" (answer_text answer_data) in
  match question_lookup questions question_idx with
  | Some question =>
      let evaluation :=
        evaluate_answer calculate_similarity question student_answer in
      (results ++ [ {| entry_question_idx := question_idx;
                       entry_question_text :=
                         default "" (question_text question);
                       entry_student_answer := student_answer;
                       entry_evaluation := evaluation |} ],
       total_marks + get_max_marks evaluation,
       marks_obtained + get_marks_obtained evaluation)
  | None => state
  end.

(** [evaluate_submission] on the request's [questions] and [answers]. *)
Definition evaluate_submission (questions : list Question)
           (answers : list AnswerData) : Response :=
  if bool_decide (questions = []) || bool_decide (answers = []) then
    Failure 400 "Questions and answers are required"
  else
    let '(results, total_marks, marks_obtained) :=
      fold_left (grade_answer questions) answers ([], 0, 0) in
    let percentage :=
      if Qlt_bool 0 total_marks then marks_obtained / total_marks * 100
      else 0 in
    Success results
      {| total_marks := total_marks;
         summary_marks_obtained := round1 marks_obtained;
         summary_percentage := round1 percentage;
         grade := _calculate_grade percentage;
         questions_correct :=
           length (filter (fun r => get_is_correct (entry_evaluation r) = true)
                          results);
         total_questions := length results |}.

(** The inner loop of [batch_evaluate] over [zip(questions, answers)]. *)
Definition grade_pair (state : list Outcome * Q * Q)
           (pair : Question * AnswerData) : list Outcome * Q * Q :=
  let '(results, total_marks, marks_obtained) := state in
  let evaluation :=
    evaluate_answer calculate_similarity (fst pair)
                    (default "" (answer_text (snd pair))) in
  (results ++ [evaluation],
   total_marks + get_max_marks evaluation,
   marks_obtained + get_marks_obtained evaluation).

Definition evaluate_one (submission : Submission) : SubmissionResult :=
  let '(results, total, obtained) :=
    fold_left grade_pair
      (zip (submission_questions submission) (submission_answers submission))
      ([], 0, 0) in
  let percentage :=
    if Qlt_bool 0 total then obtained / total * 100 else 0 in
  {| result_student_id := student_id submission;
     submission_results := results;
     submission_total_marks := total;
     submission_marks_obtained := obtained;
     submission_percentage := percentage;
     submission_grade := _calculate_grade percentage |}.

(** [batch_evaluate]: the results and [total_submissions]. *)
Definition batch_evaluate (submissions : list Submission)
  : list SubmissionResult * nat :=
  let all_results := map evaluate_one submissions in
  (all_results, length all_results).

End Routes.

(** ** The grading self-test of [training/evaluate_models.py] *)

(** [round(x, 2)] *)
Definition round2 (x : Q) : Q := inject_Z (round_half_even (x * 100)) / 100.

Section ModelEvaluator.

(** The similarity of the evaluator that [AnswerEvaluator()] builds. *)
Variable calculate_similarity : string -> string -> Q.

(** The body of the loop of [evaluate_mcq_grading]; the state is
    [correct_evaluations] and [total]. *)
Definition check_mcq (state : nat * nat) (q : Question) : nat * nat :=
  let '(correct_evaluations, total) := state in
  let correct_answer := default "A" (correct_answer q) in
  let result := evaluate_answer calculate_similarity q correct_answer in
  let correct_evaluations :=
    if get_is_correct result then S correct_evaluations
    else correct_evaluations in
  let wrong_answer := if bool_decide (correct_answer <> "B") then "B" else "C" in
  let result := evaluate_answer calculate_similarity q wrong_answer in
  let correct_evaluations :=
    if negb (get_is_correct result) then S correct_evaluations
    else correct_evaluations in
  (correct_evaluations, S total).

(** [evaluate_mcq_grading]: [total_tested], [correct_evaluations] and
    [accuracy]. *)
Definition evaluate_mcq_grading (test_questions : list Question)
  : nat * nat * Q :=
  let mcq_questions :=
    take 50 (filter (fun q => question_type q = Some "MCQ") test_questions) in
  let '(correct_evaluations, total) :=
    fold_left check_mcq mcq_questions (0%nat, length mcq_questions) in
  let accuracy :=
    if (0 <? total)%nat then Qnat correct_evaluations / Qnat total * 100
    else 0 in
  (length mcq_questions, correct_evaluations, round2 accuracy).

End ModelEvaluator.

(** ** Vocabulary of the statements and sample inputs *)

(** The same letter of the alphabet, in either case. *)
Definition same_letter (c c' : ascii) : Prop :=
  PyStr.code c = PyStr.code c'
  \/ PyStr.code c = (PyStr.code c' + 32)%nat
  \/ PyStr.code c' = (PyStr.code c + 32)%nat.

(** The [scores] dictionary of [_evaluate_descriptive] for given values
    of the four criteria. *)
Definition criteria (similarity coverage length_score coherence : Q)
  : list (string * Q) :=
  [("semantic_similarity", similarity); ("key_points_coverage", coverage);
   ("length_adequacy", length_score); ("coherence", coherence)].

(** The key-point coverage a result reports, in percent. *)
Definition reported_coverage (r : ScoreResult) : option Q :=
  match details r with
  | McqDetails _ _ _ => None
  | ShortAnswerDetails _ coverage _ => Some coverage
  | DescriptiveDetails scores _ _ => Some (item scores "key_points_coverage")
  end.

(** The test of the specification for one key point: some word of the
    point that is longer than three characters occurs in the lowercased
    answer. *)
Definition point_covered (answer point : string) : bool :=
  existsb
    (fun word =>
       (3 <? String.length word)%nat
       && PyStr.contains word (PyStr.lower answer))
    (PyStr.split (PyStr.lower point)).

(** A square root that is exact on squares of integers and of reduced
    fractions; it stands for [np.sqrt] on such inputs. *)
Definition exact_sqrt (x : Q) : Q := Z.sqrt (Qnum x) # Pos.sqrt (Qden x).

(** An encoder with two opposite unit vectors: the text ["up"] is mapped to
    (0, 1) and every other text to (0, -1). *)
Definition opposed_encoder : NLP.Encoder :=
  fun texts =>
    Some (map (fun t => if String.eqb t "up" then [0; 1] else [0; -1]) texts).

(** An encoder whose call raises. *)
Definition failing_encoder : NLP.Encoder := fun _ => None.

(** A question [dict] with the given keys; [None] leaves the key out. *)
Definition make_question (type correct expected : option string)
           (points : option (list string)) (mark : option Q) : Question :=
  {| question_type := type; question_text := None; options := None;
     correct_answer := correct; expected_answer := expected;
     key_points := points; marks := mark; explanation := None |}.

(** The evaluator as [AnswerEvaluator()] builds it when the sentence
    transformer is not installed: [calculate_similarity] is then
    [_simple_similarity]. *)
Definition default_evaluate : Question -> string -> Outcome :=
  evaluate_answer NLP._simple_similarity.

(** The position of a letter grade, from F up to A+. *)
Definition grade_rank (g : string) : nat :=
  default 0%nat
    (fst <$> list_find (fun x => x = g)
       ["F"; "D"; "D+"; "C-"; "C"; "C+"; "B-"; "B"; "B+"; "A-"; "A"; "A+"]).

(** How often a keyword occurs among the counted words of a text. *)
Definition occurrences (text keyword : string) : nat :=
  length (filter (fun w => PyStr.lower w = keyword) (NLP.content_words text)).

(** An answer entry with both keys present. *)
Definition make_answer (idx : Z) (text : string) : AnswerData :=
  {| answer_question_idx := Some idx; answer_text := Some text |}.

(** The frequency table [word_freq] is exact for the words [ws]: its keys
    are distinct and are the lowercased words, each with the number of its
    occurrences. *)
Definition counts_words (word_freq : list (string * nat)) (ws : list string)
  : Prop :=
  NoDup (map fst word_freq)
  /\ (forall k n, (k, n) ∈ word_freq ->
                  n = length (filter (fun x => PyStr.lower x = k) ws)
                  /\ (0 < n)%nat)
  /\ (forall x, x ∈ ws -> PyStr.lower x ∈ map fst word_freq).

(** Descending order of the frequencies. *)
Definition freq_ge (x y : string * nat) : Prop := (snd y <= snd x)%nat.

(** The [missing_points] and [improvement_suggestions] a result reports. *)
Definition reported_missing_points (r : ScoreResult) : list string :=
  match details r with
  | McqDetails _ _ _ => []
  | ShortAnswerDetails _ _ missing => missing
  | DescriptiveDetails _ missing _ => missing
  end.

Definition reported_suggestions (r : ScoreResult) : list string :=
  match details r with
  | DescriptiveDetails _ _ suggestions => suggestions
  | _ => []
  end.

(** The entry the submission route records for one answer: none when the
    index of the answer names no question. *)
Definition graded_entry (sim : string -> string -> Q)
           (questions : list Question) (a : AnswerData) : option ResultEntry :=
  match question_lookup questions (default 0%Z (answer_question_idx a)) with
  | Some question =>
      Some {| entry_question_idx := default 0%Z (answer_question_idx a);
              entry_question_text := default "" (question_text question);
              entry_student_answer := default "" (answer_text a);
              entry_evaluation :=
                evaluate_answer sim question (default "" (answer_text a)) |}
  | None => None
  end.

(** Sums of the maximum and of the obtained marks over evaluations, added
    from the left. *)
Definition sum_max_marks (evaluations : list Outcome) : Q :=
  fold_left (fun total e => total + get_max_marks e) evaluations 0.
Definition sum_marks_obtained (evaluations : list Outcome) : Q :=
  fold_left (fun total e => total + get_marks_obtained e) evaluations 0.

(** The marks of a question, when given, are a non-negative multiple of one
    tenth (a whole or half mark, for instance). *)
Definition tenths_marks (q : Question) : Prop :=
  match marks q with
  | None => True
  | Some m => exists n : Z, (0 <= n)%Z /\ m == inject_Z n / 10
  end.

(** The answers come in the order of the questions: the answer at position
    [i] carries the index [i]. *)
Definition aligned (answers : list AnswerData) : Prop :=
  forall (i : nat) (a : AnswerData),
    answers !! i = Some a ->
    default 0%Z (answer_question_idx a) = Z.of_nat i.

(** The text is 7-bit: every character is an ASCII character.  On such
    text [str.upper], [str.lower], [str.strip], [str.split] and the classes
    of [re] are the functions of [PyStr]. *)
Definition ascii_text (s : string) : Prop :=
  PyStr.all_chars (fun c => (PyStr.code c <? 128)%nat) s = true.

(** The marks of a question, when given, are a whole number that is not
    negative. *)
Definition whole_marks (q : Question) : Prop :=
  match marks q with
  | None => True
  | Some m => exists k : Z, (0 <= k)%Z /\ m == inject_Z k
  end.

(** * Properties *)

(** ** Rounding to one decimal *)

Section Rounding.

Lemma round_half_even_cases (x : Q) :
  (round_half_even x = Qfloor x /\ x - inject_Z (Qfloor x) <= 1 # 2)
  \/ (round_half_even x = (Qfloor x + 1)%Z
      /\ 1 # 2 <= x - inject_Z (Qfloor x)).
Proof.
  unfold round_half_even.
  destruct (Qcompare_spec (x - inject_Z (Qfloor x)) (1 # 2)) as [He | Hl | Hg].
  - destruct (Z.even (Qfloor x)); [left | right]; split; trivial;
      rewrite He; apply Qle_refl.
  - left. split; [reflexivity | apply Qlt_le_weak, Hl].
  - right. split; [reflexivity | apply Qlt_le_weak, Hg].
Qed.

Lemma round_half_even_error (x : Q) :
  Qabs (inject_Z (round_half_even x) - x) <= 1 # 2.
Proof.
  pose proof (Qfloor_le x) as Hlo. pose proof (Qlt_floor x) as Hhi.
  rewrite inject_Z_plus in Hhi.
  apply Qabs_Qle_condition.
  destruct (round_half_even_cases x) as [[-> H] | [-> H]];
    rewrite ?inject_Z_plus; change (inject_Z 1) with 1 in *; split; lra.
Qed.

Lemma round_half_even_comp (x y : Q) :
  x == y -> round_half_even x = round_half_even y.
Proof.
  intros E. unfold round_half_even.
  rewrite (Qfloor_comp _ _ E).
  assert (x - inject_Z (Qfloor y) == y - inject_Z (Qfloor y)) as ->
    by (rewrite E; reflexivity).
  reflexivity.
Qed.

Lemma round_half_even_Z (n : Z) : round_half_even (inject_Z n) = n.
Proof.
  unfold round_half_even. rewrite Qfloor_Z.
  destruct (Qcompare_spec (inject_Z n - inject_Z n) (1 # 2));
    [exfalso; lra | reflexivity | exfalso; lra].
Qed.

Lemma round_half_even_mono (x y : Q) :
  x <= y -> (round_half_even x <= round_half_even y)%Z.
Proof.
  intros Hxy.
  pose proof (Qfloor_resp_le _ _ Hxy) as Hf.
  destruct (Z.eq_dec (Qfloor x) (Qfloor y)) as [E | N].
  - unfold round_half_even. rewrite E.
    destruct (Qcompare_spec (x - inject_Z (Qfloor y)) (1 # 2)) as [He | Hl | Hg];
      destruct (Qcompare_spec (y - inject_Z (Qfloor y)) (1 # 2)) as [He' | Hl' | Hg'];
      try destruct (Z.even (Qfloor y)); try lia; exfalso; lra.
  - destruct (round_half_even_cases x) as [[-> _] | [-> _]];
      destruct (round_half_even_cases y) as [[-> _] | [-> _]]; lia.
Qed.

Lemma round1_comp (x y : Q) : x == y -> round1 x == round1 y.
Proof.
  intros E. unfold round1.
  rewrite (round_half_even_comp (x * 10) (y * 10)); [reflexivity |].
  rewrite E. reflexivity.
Qed.

Lemma round1_error (x : Q) : Qabs (round1 x - x) <= 1 # 20.
Proof.
  pose proof (round_half_even_error (x * 10)) as H.
  apply Qabs_Qle_condition in H. apply Qabs_Qle_condition.
  unfold round1. destruct H as [H1 H2]. split.
  - apply Qmult_le_r with (z := 10); [reflexivity |]. field_simplify. lra.
  - apply Qmult_le_r with (z := 10); [reflexivity |]. field_simplify. lra.
Qed.

Lemma round1_mono (x y : Q) : x <= y -> round1 x <= round1 y.
Proof.
  intros H. unfold round1.
  assert (x * 10 <= y * 10) as H10 by lra.
  apply round_half_even_mono in H10.
  rewrite Zle_Qle in H10.
  apply Qmult_le_r with (z := 10); [reflexivity |]. field_simplify. lra.
Qed.

(** A multiple of one tenth is its own rounding. *)
Lemma round1_tenths (n : Z) : round1 (inject_Z n / 10) == inject_Z n / 10.
Proof.
  unfold round1.
  rewrite (round_half_even_comp (inject_Z n / 10 * 10) (inject_Z n)).
  - rewrite round_half_even_Z. reflexivity.
  - field.
Qed.

Lemma round1_nonneg (x : Q) : 0 <= x -> 0 <= round1 x.
Proof.
  intros H. apply round1_mono in H.
  assert (round1 0 == 0) as E by reflexivity. rewrite E in H. exact H.
Qed.

Lemma round1_le_tenths (x : Q) (n : Z) :
  x <= inject_Z n / 10 -> round1 x <= inject_Z n / 10.
Proof.
  intros H. apply round1_mono in H. rewrite round1_tenths in H. exact H.
Qed.

End Rounding.

(** ** Text lemmas *)

Section Text.

Import PyStr.

Lemma code_lt_256 (c : ascii) : (code c < 256)%nat.
Proof. apply nat_ascii_bounded. Qed.

Lemma code_inj (c c' : ascii) : code c = code c' -> c = c'.
Proof.
  intros H. rewrite <- (ascii_nat_embedding c), <- (ascii_nat_embedding c').
  unfold code in H. rewrite H. reflexivity.
Qed.

Lemma code_char_upper (c : ascii) :
  code (char_upper c) = if is_lower c then (code c - 32)%nat else code c.
Proof.
  unfold char_upper. destruct (is_lower c); [| reflexivity].
  unfold code. apply nat_ascii_embedding.
  pose proof (code_lt_256 c). unfold code in *. lia.
Qed.

Lemma code_char_lower (c : ascii) :
  code (char_lower c) = if is_upper c then (code c + 32)%nat else code c.
Proof.
  unfold char_lower. destruct (is_upper c) eqn:E; [| reflexivity].
  unfold code. apply nat_ascii_embedding.
  unfold is_upper, code in E. lia.
Qed.

Lemma isspace_char_upper (c : ascii) : isspace (char_upper c) = isspace c.
Proof.
  unfold isspace. rewrite code_char_upper.
  destruct (is_lower c) eqn:E; [| reflexivity].
  unfold is_lower in E. lia.
Qed.

Lemma map_chars_app (f : ascii -> ascii) (s t : string) :
  map_chars f (s +:+ t) = map_chars f s +:+ map_chars f t.
Proof. induction s as [| c s IH]; simpl; [reflexivity | now rewrite IH]. Qed.

Lemma all_isspace_upper (s : string) :
  all_chars isspace (upper s) = all_chars isspace s.
Proof.
  induction s as [| c s IH]; simpl; [reflexivity |].
  rewrite isspace_char_upper. unfold upper in IH. now rewrite IH.
Qed.

Lemma lstrip_all_space (s : string) :
  all_chars isspace s = true -> lstrip s = "".
Proof.
  induction s as [| c s IH]; simpl; [reflexivity |].
  destruct (isspace c); simpl; [exact IH | discriminate].
Qed.

Lemma rstrip_empty_iff (s : string) :
  rstrip s = "" <-> all_chars isspace s = true.
Proof.
  induction s as [| c s IH]; simpl; [tauto |].
  destruct (rstrip s) eqn:R.
  - destruct (isspace c); simpl.
    + split; intros _; [apply IH |]; reflexivity.
    + split; discriminate.
  - split; [discriminate |].
    intros H. apply andb_prop in H as [_ H].
    apply IH in H. discriminate.
Qed.

Lemma all_isspace_lstrip (s : string) :
  all_chars isspace (lstrip s) = all_chars isspace s.
Proof.
  induction s as [| c s IH]; simpl; [reflexivity |].
  destruct (isspace c) eqn:E; simpl; [exact IH | now rewrite E].
Qed.

(** Stripping leaves nothing exactly when the text is white space. *)
Lemma strip_upper_empty_iff (s : string) :
  strip (upper s) = "" <-> all_chars isspace s = true.
Proof.
  unfold strip. rewrite rstrip_empty_iff, all_isspace_lstrip.
  now rewrite all_isspace_upper.
Qed.

Lemma lstrip_app_space (pre t : string) :
  all_chars isspace pre = true -> lstrip (pre +:+ t) = lstrip t.
Proof.
  induction pre as [| c pre IH]; simpl; [reflexivity |].
  intros H. apply andb_prop in H as [-> H]. apply IH, H.
Qed.

(** A single visible character between white space strips to itself. *)
Lemma strip_padded_char (pre post : string) (c : ascii) :
  all_chars isspace pre = true -> all_chars isspace post = true ->
  isspace c = false ->
  strip (pre +:+ String c post) = String c "".
Proof.
  intros Hpre Hpost Hc. unfold strip.
  rewrite (lstrip_app_space _ _ Hpre). simpl. rewrite Hc. simpl.
  apply rstrip_empty_iff in Hpost. rewrite Hpost, Hc. reflexivity.
Qed.

Lemma letter_not_space (c : ascii) : is_letter c = true -> isspace c = false.
Proof. unfold is_letter, is_lower, is_upper, isspace. lia. Qed.

Lemma char_upper_letter (c : ascii) :
  is_letter c = true -> is_upper (char_upper c) = true.
Proof.
  unfold is_upper. rewrite code_char_upper.
  unfold is_letter, is_lower, is_upper.
  destruct ((97 <=? code c)%nat && (code c <=? 122)%nat) eqn:E; lia.
Qed.

End Text.

Lemma char_upper_eq_iff (c c' : ascii) :
  PyStr.is_letter c = true -> PyStr.is_letter c' = true ->
  PyStr.char_upper c = PyStr.char_upper c' <-> same_letter c c'.
Proof.
  intros Hc Hc'. unfold same_letter. split.
  - intros H. apply (f_equal PyStr.code) in H.
    rewrite !code_char_upper in H.
    unfold PyStr.is_letter, PyStr.is_lower, PyStr.is_upper in *.
    destruct ((97 <=? PyStr.code c)%nat && (PyStr.code c <=? 122)%nat) eqn:E;
      destruct ((97 <=? PyStr.code c')%nat && (PyStr.code c' <=? 122)%nat) eqn:E';
      lia.
  - intros H. apply code_inj. rewrite !code_char_upper.
    unfold PyStr.is_letter, PyStr.is_lower, PyStr.is_upper in *.
    destruct ((97 <=? PyStr.code c)%nat && (PyStr.code c <=? 122)%nat) eqn:E;
      destruct ((97 <=? PyStr.code c')%nat && (PyStr.code c' <=? 122)%nat) eqn:E';
      lia.
Qed.

(** ** Dispatch on the question type *)

(** C3, the claim as stated fails: a question without the key
    [question_type] is not rejected, it is graded as an MCQ, and here even
    marked correct. *)
Lemma missing_type_defaults_to_mcq :
  question_type (make_question None None None None None) = None
  /\ exists r,
      default_evaluate (make_question None None None None None) "" = Score r
      /\ result_type r = "MCQ" /\ is_correct r = true.
Proof. split; [reflexivity |]. eexists. repeat split. Qed.

(** C3, amended: a question whose [question_type] is present and is none of
    MCQ, SHORT_ANSWER, DESCRIPTIVE yields the error value
    ["Unknown question type: <type>"] and no score. *)
Theorem unknown_type_is_error
        (sim : string -> string -> Q) (q : Question) (s t : string) :
  question_type q = Some t ->
  t <> "MCQ" -> t <> "SHORT_ANSWER" -> t <> "DESCRIPTIVE" ->
  evaluate_answer sim q s = Error ("Unknown question type: " +:+ t).
Proof.
  intros Ht H1 H2 H3. unfold evaluate_answer. rewrite Ht. simpl.
  apply String.eqb_neq in H1, H2, H3. rewrite H1, H2, H3. reflexivity.
Qed.

Lemma unknown_type_is_error_witness :
  default_evaluate (make_question (Some "ESSAY") None None None None) "text"
  = Error "Unknown question type: ESSAY".
Proof.
  apply (unknown_type_is_error NLP._simple_similarity
           (make_question (Some "ESSAY") None None None None) "text" "ESSAY");
    [reflexivity | discriminate | discriminate | discriminate].
Defined.

(** ** Multiple choice *)

Lemma evaluate_mcq (sim : string -> string -> Q) (q : Question) (s : string) :
  question_type q = Some "MCQ" ->
  evaluate_answer sim q s = Score (_evaluate_mcq q s).
Proof. intros Ht. unfold evaluate_answer. rewrite Ht. reflexivity. Qed.

(** C2: with a letter as correct answer, a student answer that is one
    letter between white space is correct, with full marks and 100 percent,
    when it is the same letter in either case, and incorrect, with no marks
    and 0 percent, when it is another letter. *)
Theorem mcq_letter_grading
        (sim : string -> string -> Q) (q : Question)
        (c c' : ascii) (pre post : string) :
  question_type q = Some "MCQ" ->
  correct_answer q = Some (String c "") ->
  PyStr.is_letter c = true -> PyStr.is_letter c' = true ->
  PyStr.all_chars PyStr.isspace pre = true ->
  PyStr.all_chars PyStr.isspace post = true ->
  exists r,
    evaluate_answer sim q (pre +:+ String c' post) = Score r
    /\ max_marks r = default 1 (marks q)
    /\ (same_letter c c' ->
        is_correct r = true /\ marks_obtained r = max_marks r
        /\ percentage r = 100)
    /\ (~ same_letter c c' ->
        is_correct r = false /\ marks_obtained r = 0 /\ percentage r = 0).
Proof.
  intros Ht Hca Hc Hc' Hpre Hpost.
  exists (_evaluate_mcq q (pre +:+ String c' post)).
  split; [apply evaluate_mcq, Ht |]. split; [reflexivity |].
  unfold _evaluate_mcq. rewrite Hca.
  cbn [default from_option id is_correct marks_obtained max_marks percentage].
  assert (PyStr.strip (PyStr.upper (String c "")) = String (PyStr.char_upper c) "")
    as ->.
  { apply (strip_padded_char "" "" (PyStr.char_upper c));
      [reflexivity | reflexivity |].
    rewrite isspace_char_upper. apply letter_not_space, Hc. }
  assert (PyStr.strip (PyStr.upper (pre +:+ String c' post))
          = String (PyStr.char_upper c') "") as ->.
  { unfold PyStr.upper. rewrite map_chars_app. simpl.
    apply strip_padded_char.
    - fold (PyStr.upper pre). now rewrite all_isspace_upper.
    - fold (PyStr.upper post). now rewrite all_isspace_upper.
    - rewrite isspace_char_upper. apply letter_not_space, Hc'. }
  pose proof (char_upper_eq_iff c c' Hc Hc') as Hiff.
  destruct (String.eqb_spec (String (PyStr.char_upper c') "")
                            (String (PyStr.char_upper c) "")) as [E | N].
  - split; [intros _; repeat split |].
    intros Hn. exfalso. apply Hn, Hiff. congruence.
  - split; [| intros _; repeat split].
    intros Hs. exfalso. apply N. apply Hiff in Hs. congruence.
Qed.

Lemma mcq_letter_grading_witness :
  exists r,
    default_evaluate
      (make_question (Some "MCQ") (Some "A") None None None) " a " = Score r
    /\ max_marks r = 1
    /\ (same_letter "A" "a" ->
        is_correct r = true /\ marks_obtained r = max_marks r
        /\ percentage r = 100)
    /\ (~ same_letter "A" "a" ->
        is_correct r = false /\ marks_obtained r = 0 /\ percentage r = 0).
Proof.
  apply (mcq_letter_grading NLP._simple_similarity
           (make_question (Some "MCQ") (Some "A") None None None)
           "A" "a" " " " "); reflexivity.
Defined.

(** C5, the claim as stated fails: without a correct answer, the blank
    student answer is marked correct. *)
Lemma mcq_blank_answer_matches_missing_key :
  correct_answer (make_question (Some "MCQ") None None None None) = None
  /\ exists r,
      default_evaluate (make_question (Some "MCQ") None None None None) ""
      = Score r
      /\ is_correct r = true.
Proof. split; [reflexivity |]. eexists. repeat split. Qed.

(** C5, amended: when the correct answer of an MCQ is missing or empty,
    the evaluation returns a score, and every student answer with at least
    one character that is not white space is marked incorrect. *)
Theorem mcq_missing_key_incorrect
        (sim : string -> string -> Q) (q : Question) (s : string) :
  question_type q = Some "MCQ" ->
  correct_answer q = None \/ correct_answer q = Some "" ->
  PyStr.all_chars PyStr.isspace s = false ->
  exists r, evaluate_answer sim q s = Score r /\ is_correct r = false.
Proof.
  intros Ht Hca Hs. exists (_evaluate_mcq q s).
  split; [apply evaluate_mcq, Ht |].
  unfold _evaluate_mcq. cbn [is_correct].
  assert (PyStr.strip (PyStr.upper (default "" (correct_answer q))) = "") as ->
    by (destruct Hca as [-> | ->]; reflexivity).
  apply String.eqb_neq. intros E.
  apply strip_upper_empty_iff in E. congruence.
Qed.

Lemma mcq_missing_key_incorrect_witness :
  exists r,
    default_evaluate (make_question (Some "MCQ") None None None None) " b "
    = Score r
    /\ is_correct r = false.
Proof.
  apply (mcq_missing_key_incorrect NLP._simple_similarity
           (make_question (Some "MCQ") None None None None) " b ");
    [reflexivity | left; reflexivity | reflexivity].
Defined.

(** ** Key points *)

Lemma fold_left_pointwise {A B : Type} (f g : A -> B -> A) (l : list B) (a : A) :
  (forall x y, f x y = g x y) -> fold_left f l a = fold_left g l a.
Proof.
  intros H. revert a. induction l as [| b l IH]; intros a; simpl;
    [reflexivity | now rewrite H, IH].
Qed.

Section KeyPoints.

Variable answer : string.

(** The test both loops apply to a point is the one of the
    specification. *)
Lemma point_test (point : string) :
  existsb (fun word => PyStr.contains word (PyStr.lower answer))
    (filter (fun word => (3 < String.length word)%nat)
       (elements
          (list_to_set (PyStr.split (PyStr.lower point)) : gset string)))
  = point_covered answer point.
Proof.
  unfold point_covered. apply eq_true_iff_eq.
  rewrite !existsb_exists. split; intros (w & Hin & Hw).
  - apply list_elem_of_In, list_elem_of_filter in Hin as [Hlen Hin].
    apply elem_of_elements, elem_of_list_to_set in Hin.
    exists w. split; [now apply list_elem_of_In |].
    apply andb_true_intro. split; [apply Nat.ltb_lt, Hlen | exact Hw].
  - apply andb_prop in Hw as [Hlen Hw]. apply Nat.ltb_lt in Hlen.
    exists w. split; [| exact Hw].
    apply list_elem_of_In, list_elem_of_filter. split; [exact Hlen |].
    apply elem_of_elements, elem_of_list_to_set.
    now apply list_elem_of_In.
Qed.

Lemma missing_loop (points acc : list string) :
  fold_left
    (fun (missing : list string) (point : string) =>
       if negb (point_covered answer point)
       then missing ++ [point] else missing)
    points acc
  = acc ++ filter (fun p => point_covered answer p = false) points.
Proof.
  revert acc. induction points as [| p points IH]; intros acc; simpl.
  - now rewrite app_nil_r.
  - rewrite IH. destruct (point_covered answer p) eqn:E; simpl.
    + rewrite filter_cons_False; [reflexivity | congruence].
    + rewrite filter_cons_True by exact E. now rewrite <- app_assoc.
Qed.

Lemma covered_loop (points : list string) (acc : nat) :
  fold_left
    (fun (covered : nat) (point : string) =>
       if point_covered answer point then S covered else covered)
    points acc
  = (acc + length (filter (fun p => point_covered answer p = true) points))%nat.
Proof.
  revert acc. induction points as [| p points IH]; intros acc; simpl.
  - lia.
  - rewrite IH. destruct (point_covered answer p) eqn:E.
    + rewrite filter_cons_True by exact E. simpl. lia.
    + rewrite filter_cons_False; [reflexivity | congruence].
Qed.

Lemma covered_plus_missing (points : list string) :
  (length (filter (fun p => point_covered answer p = true) points)
   + length (filter (fun p => point_covered answer p = false) points)
   = length points)%nat.
Proof.
  induction points as [| p points IH]; [reflexivity |].
  destruct (point_covered answer p) eqn:E.
  - rewrite filter_cons_True by exact E.
    rewrite filter_cons_False by congruence. simpl. lia.
  - rewrite filter_cons_False by congruence.
    rewrite filter_cons_True by exact E. simpl. lia.
Qed.

Lemma get_missing_points_filter (points : list string) :
  _get_missing_points answer points
  = filter (fun p => point_covered answer p = false) points.
Proof.
  unfold _get_missing_points.
  etransitivity; [| exact (missing_loop points [])].
  apply fold_left_pointwise.
  intros missing point. now rewrite point_test.
Qed.

Lemma check_key_points_count (points : list string) :
  points <> [] ->
  _check_key_points answer points
  = Qnat (length (filter (fun p => point_covered answer p = true) points))
    / Qnat (length points).
Proof.
  intros Hne. unfold _check_key_points.
  destruct points as [| p0 points]; [congruence |].
  f_equal. f_equal.
  etransitivity; [| exact (covered_loop (p0 :: points) 0)].
  apply fold_left_pointwise.
  intros covered point. now rewrite point_test.
Qed.

End KeyPoints.

(** ** Counts as rationals *)

Lemma Qnat_nonneg (n : nat) : 0 <= Qnat n.
Proof. unfold Qnat. rewrite <- (Zle_Qle 0). lia. Qed.

Lemma Qnat_pos (n : nat) : (0 < n)%nat -> 0 < Qnat n.
Proof. intros H. unfold Qnat. rewrite <- (Zlt_Qlt 0). lia. Qed.

Lemma Qnat_le (n m : nat) : (n <= m)%nat -> Qnat n <= Qnat m.
Proof. intros H. unfold Qnat. rewrite <- Zle_Qle. lia. Qed.

Lemma Qnat_plus (n m : nat) : Qnat (n + m) == Qnat n + Qnat m.
Proof. unfold Qnat. now rewrite Nat2Z.inj_add, inject_Z_plus. Qed.

Lemma Qnat_inj (n m : nat) : Qnat n == Qnat m -> n = m.
Proof. unfold Qnat. rewrite inject_Z_injective. lia. Qed.

(** A part of a non-empty whole is a fraction between 0 and 1. *)
Lemma fraction_bounds (n m : nat) :
  (n <= m)%nat -> (0 < m)%nat -> 0 <= Qnat n / Qnat m <= 1.
Proof.
  intros Hle Hpos. pose proof (Qnat_pos m Hpos) as Hm.
  pose proof (Qnat_nonneg n) as Hn. pose proof (Qnat_le n m Hle) as Hnm.
  split.
  - apply Qle_shift_div_l; [exact Hm | lra].
  - apply Qle_shift_div_r; [exact Hm | lra].
Qed.

Lemma fraction_one (n m : nat) :
  (0 < m)%nat -> Qnat n / Qnat m == 1 <-> n = m.
Proof.
  intros Hpos. pose proof (Qnat_pos m Hpos) as Hm. split.
  - intros H. apply Qnat_inj.
    assert (Qnat n == Qnat n / Qnat m * Qnat m) as -> by (field; lra).
    rewrite H. ring.
  - intros ->. field. lra.
Qed.

(** C9: the missing points are the key points that fail the coverage test
    of the specification, in their order; for a non-empty list the
    coverage is one minus the share of missing points; and no point is
    missing exactly when the coverage is 1. *)
Theorem missing_points_complement_coverage (answer : string)
        (points : list string) :
  _get_missing_points answer points
  = filter (fun p => point_covered answer p = false) points
  /\ (points <> [] ->
      _check_key_points answer points
      == 1 - Qnat (length (_get_missing_points answer points))
             / Qnat (length points))
  /\ (_get_missing_points answer points = []
      <-> _check_key_points answer points == 1).
Proof.
  pose proof (get_missing_points_filter answer points) as Hmiss.
  pose proof (covered_plus_missing answer points) as Hsum.
  split; [exact Hmiss |].
  destruct points as [| p0 points'] eqn:Ep.
  { split; [congruence |]. split; reflexivity. }
  rewrite <- Ep in *.
  assert (points <> []) as Hne by (rewrite Ep; discriminate).
  assert (0 < length points)%nat as Hlen by (rewrite Ep; simpl; lia).
  pose proof (Qnat_pos _ Hlen) as Hpos.
  rewrite (check_key_points_count answer points Hne), Hmiss.
  set (cov := length (filter (fun p => point_covered answer p = true) points)) in *.
  set (mis := length (filter (fun p => point_covered answer p = false) points)) in *.
  split.
  - intros _.
    assert (Qnat cov == Qnat (length points) - Qnat mis) as ->
      by (rewrite <- Hsum, Qnat_plus; ring).
    field. lra.
  - rewrite (fraction_one cov (length points) Hlen). split.
    + intros E. subst mis. rewrite E in Hsum. simpl in Hsum. lia.
    + intros E. apply nil_length_inv. fold mis. lia.
Qed.

Lemma missing_points_complement_coverage_witness :
  _check_key_points "sunlight" ["sunlight"; "plants"; "energy"; "water"]
  == 1 - Qnat (length (_get_missing_points "sunlight"
                         ["sunlight"; "plants"; "energy"; "water"]))
         / Qnat (length ["sunlight"; "plants"; "energy"; "water"]).
Proof.
  apply (missing_points_complement_coverage "sunlight"
           ["sunlight"; "plants"; "energy"; "water"]).
  discriminate.
Defined.

(** C7: without key points the coverage sub-score is exactly 1, for every
    answer, and a short-answer or descriptive result reports it as 100
    percent. *)
Theorem empty_key_points_full_coverage
        (sim : string -> string -> Q) (q : Question) (s : string) :
  question_type q = Some "SHORT_ANSWER"
  \/ question_type q = Some "DESCRIPTIVE" ->
  key_points q = None \/ key_points q = Some [] ->
  _check_key_points s (default [] (key_points q)) = 1
  /\ exists r v,
      evaluate_answer sim q s = Score r
      /\ reported_coverage r = Some v /\ v == 100.
Proof.
  intros Ht Hk.
  assert (default [] (key_points q) = []) as Hnil
    by (destruct Hk as [-> | ->]; reflexivity).
  split; [rewrite Hnil; reflexivity |].
  destruct Ht as [Ht | Ht]; unfold evaluate_answer; rewrite Ht; simpl.
  - eexists. eexists. split; [reflexivity |].
    unfold reported_coverage, _evaluate_short_answer. simpl.
    rewrite Hnil. split; reflexivity.
  - eexists. eexists. split; [reflexivity |].
    unfold reported_coverage, _evaluate_descriptive, descriptive_scores. simpl.
    rewrite Hnil. split; reflexivity.
Qed.

Lemma empty_key_points_full_coverage_witness :
  _check_key_points "Plants use sunlight." [] = 1
  /\ exists r v,
      default_evaluate
        (make_question (Some "DESCRIPTIVE") None (Some "Plants need light.")
                       (Some []) None)
        "Plants use sunlight." = Score r
      /\ reported_coverage r = Some v /\ v == 100.
Proof.
  apply (empty_key_points_full_coverage NLP._simple_similarity
           (make_question (Some "DESCRIPTIVE") None (Some "Plants need light.")
                          (Some []) None)
           "Plants use sunlight.");
    [right; reflexivity | right; reflexivity].
Defined.

(** ** Similarity *)

Lemma simple_similarity_bounds (a b : string) :
  0 <= NLP._simple_similarity a b <= 1.
Proof.
  unfold NLP._simple_similarity.
  set (w1 := list_to_set (NLP._tokenize (PyStr.lower a)) : gset string).
  set (w2 := list_to_set (NLP._tokenize (PyStr.lower b)) : gset string).
  destruct (bool_decide (w1 = ∅)) eqn:E1; simpl; [lra |].
  destruct (bool_decide (w2 = ∅)) eqn:E2; simpl; [lra |].
  apply bool_decide_eq_false in E1.
  apply fraction_bounds.
  - apply subseteq_size.
    etrans; [apply intersection_subseteq_l | apply union_subseteq_l].
  - apply set_choose_L in E1 as [x Hx].
    assert (size (w1 ∪ w2) <> 0%nat); [| lia].
    apply size_non_empty_iff. intros Hempty.
    apply (not_elem_of_empty (C := gset string) x). rewrite <- Hempty.
    apply elem_of_union. left. exact Hx.
Qed.

Lemma simple_similarity_degenerate (a b : string) :
  NLP._tokenize (PyStr.lower a) = [] \/ NLP._tokenize (PyStr.lower b) = [] ->
  NLP._simple_similarity a b = 0.
Proof.
  unfold NLP._simple_similarity. intros [H | H]; rewrite H; simpl.
  - reflexivity.
  - now rewrite orb_true_r.
Qed.

(** C4, the code at the failing input: with an embedding model the cosine
    is returned as computed, without the clamp to [0,1]; for the two
    opposite vectors of [opposed_encoder] the similarity is negative. *)
Lemma embedding_similarity_negative :
  exists v,
    NLP.calculate_similarity exact_sqrt (Some opposed_encoder) "up" "down"
    = NLP.Finite v
    /\ v < 0.
Proof. eexists. split; [vm_compute; reflexivity | reflexivity]. Qed.

(** The token-overlap strategy, which is the one in use when no embedding
    model is loaded or when the encoding fails, keeps the contract of the
    similarity: a value in [0,1], and 0 when either text has no token after
    normalization. *)
Theorem token_overlap_similarity_range
        (sqrt : Q -> Q) (model : NLP.Encoder) (a b : string) :
  model [a; b] = None ->
  NLP.calculate_similarity sqrt None a b
  = NLP.Finite (NLP._simple_similarity a b)
  /\ NLP.calculate_similarity sqrt (Some model) a b
     = NLP.Finite (NLP._simple_similarity a b)
  /\ 0 <= NLP._simple_similarity a b <= 1
  /\ (NLP._tokenize (PyStr.lower a) = []
      \/ NLP._tokenize (PyStr.lower b) = [] ->
      NLP._simple_similarity a b = 0).
Proof.
  intros Hfail. split; [reflexivity |].
  split; [unfold NLP.calculate_similarity; now rewrite Hfail |].
  split; [apply simple_similarity_bounds | apply simple_similarity_degenerate].
Qed.

Lemma token_overlap_similarity_range_witness :
  NLP.calculate_similarity exact_sqrt None "?!" "Plants need light"
  = NLP.Finite (NLP._simple_similarity "?!" "Plants need light")
  /\ NLP.calculate_similarity exact_sqrt (Some failing_encoder)
       "?!" "Plants need light"
     = NLP.Finite (NLP._simple_similarity "?!" "Plants need light")
  /\ 0 <= NLP._simple_similarity "?!" "Plants need light" <= 1
  /\ (NLP._tokenize (PyStr.lower "?!") = []
      \/ NLP._tokenize (PyStr.lower "Plants need light") = [] ->
      NLP._simple_similarity "?!" "Plants need light" = 0).
Proof.
  apply (token_overlap_similarity_range exact_sqrt failing_encoder
           "?!" "Plants need light").
  reflexivity.
Defined.

(** ** Combined scores *)

Lemma descriptive_combined_criteria (s k l c : Q) :
  descriptive_combined (criteria s k l c)
  == s * 0.4 + k * 0.3 + l * 0.15 + c * 0.15.
Proof. unfold descriptive_combined, criteria. simpl. ring. Qed.

(** C6: with the similarity, and for a descriptive answer the length
    adequacy and the coherence, held fixed, a larger key-point coverage
    never gives a smaller combined score. *)
Theorem combined_score_monotone_in_coverage
        (similarity length_score coherence coverage coverage' : Q) :
  coverage <= coverage' ->
  short_answer_combined similarity coverage
  <= short_answer_combined similarity coverage'
  /\ descriptive_combined
       (criteria similarity coverage length_score coherence)
     <= descriptive_combined
          (criteria similarity coverage' length_score coherence).
Proof.
  intros H. split.
  - unfold short_answer_combined. lra.
  - rewrite !descriptive_combined_criteria. lra.
Qed.

Lemma combined_score_monotone_in_coverage_witness :
  short_answer_combined 0.25 0.5 <= short_answer_combined 0.25 0.75
  /\ descriptive_combined (criteria 0.25 0.5 0.1 1)
     <= descriptive_combined (criteria 0.25 0.75 0.1 1).
Proof.
  apply (combined_score_monotone_in_coverage 0.25 0.1 1 0.5 0.75).
  unfold Qle. simpl. lia.
Defined.

(** ** Letter grades *)

(** C8: the letter grade follows the breakpoint table, read from the
    top. *)
Theorem calculate_grade_table (p : Q) :
  (90 <= p -> _calculate_grade p = "A+")
  /\ (85 <= p < 90 -> _calculate_grade p = "A")
  /\ (80 <= p < 85 -> _calculate_grade p = "A-")
  /\ (75 <= p < 80 -> _calculate_grade p = "B+")
  /\ (70 <= p < 75 -> _calculate_grade p = "B")
  /\ (65 <= p < 70 -> _calculate_grade p = "B-")
  /\ (60 <= p < 65 -> _calculate_grade p = "C+")
  /\ (55 <= p < 60 -> _calculate_grade p = "C")
  /\ (50 <= p < 55 -> _calculate_grade p = "C-")
  /\ (45 <= p < 50 -> _calculate_grade p = "D+")
  /\ (40 <= p < 45 -> _calculate_grade p = "D")
  /\ (p < 40 -> _calculate_grade p = "F").
Proof.
  unfold _calculate_grade.
  repeat match goal with
         | |- context [Qle_bool ?a p] =>
             let E := fresh "E" in
             destruct (Qle_bool a p) eqn:E;
             [apply Qle_bool_iff in E
             | assert (~ a <= p)
                 by (intros E'; apply Qle_bool_iff in E'; congruence);
               clear E]
         end;
    repeat split; intros; first [reflexivity | exfalso; lra].
Qed.

Lemma calculate_grade_table_witness : _calculate_grade 87.5 = "A".
Proof.
  apply (calculate_grade_table 87.5). split; unfold Qle, Qlt; simpl; lia.
Defined.

(** ** Ranges of the sub-scores *)

Lemma check_key_points_bounds (answer : string) (points : list string) :
  0 <= _check_key_points answer points <= 1.
Proof.
  destruct points as [| p0 rest].
  - simpl. split; [apply (Qnat_nonneg 1) | apply Qle_refl].
  - rewrite check_key_points_count by discriminate.
    apply fraction_bounds; [apply length_filter | simpl; lia].
Qed.

Lemma get_positive (d : list (string * nat)) (key : string) (dflt : nat) :
  Forall (fun kv => 0 < snd kv)%nat d -> (0 < dflt)%nat ->
  (0 < get d key dflt)%nat.
Proof.
  intros Hd Hdflt. induction Hd as [| [k v] d Hv _ IH]; simpl; [exact Hdflt |].
  destruct (String.eqb k key); [exact Hv | exact IH].
Qed.

Lemma check_length_adequacy_bounds (answer type : string) :
  0 <= _check_length_adequacy answer type <= 1.
Proof.
  unfold _check_length_adequacy.
  set (wc := length (PyStr.split answer)).
  assert (0 < get min_words type 20)%nat as Hmin
    by (apply get_positive; [repeat constructor; simpl; lia | lia]).
  assert (0 < get max_words type 200)%nat as Hmax
    by (apply get_positive; [repeat constructor; simpl; lia | lia]).
  set (min_w := get min_words type 20) in *.
  set (max_w := get max_words type 200) in *.
  destruct (wc <? min_w)%nat eqn:E1.
  - apply fraction_bounds; lia.
  - destruct (max_w <? wc)%nat eqn:E2.
    + assert (0 <= (Qnat wc - Qnat max_w) / Qnat max_w) as Hover.
      { apply Qle_shift_div_l; [apply Qnat_pos, Hmax |].
        assert (Qnat max_w <= Qnat wc) by (apply Qnat_le; lia). lra. }
      split.
      * apply Qle_trans with (y := 0.5); [discriminate | apply Q.le_max_l].
      * apply Q.max_lub; [discriminate | lra].
    + split; [discriminate | apply Qle_refl].
Qed.

Lemma check_coherence_bounds (answer : string) :
  0 <= _check_coherence answer <= 1.
Proof.
  unfold _check_coherence.
  set (sentences :=
         map PyStr.strip
             (filter (fun s => PyStr.strip s <> "")
                     (PyStr.re_split sentence_end answer))).
  destruct (length sentences <? 2)%nat eqn:E.
  - split; discriminate.
  - apply fraction_bounds; [apply length_filter | lia].
Qed.

Lemma short_answer_combined_bounds (similarity coverage : Q) :
  0 <= similarity <= 1 -> 0 <= coverage <= 1 ->
  0 <= short_answer_combined similarity coverage <= 1.
Proof. intros H1 H2. unfold short_answer_combined. lra. Qed.

Lemma descriptive_combined_bounds (s k l c : Q) :
  0 <= s <= 1 -> 0 <= k <= 1 -> 0 <= l <= 1 -> 0 <= c <= 1 ->
  0 <= descriptive_combined (criteria s k l c) <= 1.
Proof. intros Hs Hk Hl Hc. rewrite descriptive_combined_criteria. lra. Qed.

(** Marks and percentage derived from a combined score in [0,1]. *)
Lemma rounded_marks_bounds (c m : Q) :
  0 <= c <= 1 -> 0 <= m ->
  0 <= round1 (c * m) <= m + (1 # 20)
  /\ (forall n : Z, m == inject_Z n / 10 -> round1 (c * m) <= m).
Proof.
  intros [Hc0 Hc1] Hm.
  assert (0 <= c * m) as Hlo by (apply Qmult_le_0_compat; assumption).
  assert (c * m <= m) as Hhi.
  { assert (c * m <= 1 * m) as H by (apply Qmult_le_compat_r; assumption).
    lra. }
  split; [split |].
  - apply round1_nonneg, Hlo.
  - pose proof (round1_error (c * m)) as He.
    apply Qabs_Qle_condition in He. lra.
  - intros n Hn. apply Qle_trans with (y := inject_Z n / 10).
    + apply round1_le_tenths. rewrite <- Hn. exact Hhi.
    + rewrite Hn. apply Qle_refl.
Qed.

Lemma rounded_percentage_bounds (c : Q) :
  0 <= c <= 1 -> 0 <= round1 (c * 100) <= 100.
Proof.
  intros [Hc0 Hc1]. split.
  - apply round1_nonneg. lra.
  - assert (inject_Z 1000 / 10 == 100) as E by reflexivity.
    apply Qle_trans with (y := inject_Z 1000 / 10).
    + apply round1_le_tenths. rewrite E. lra.
    + rewrite E. apply Qle_refl.
Qed.

(** ** Marks and percentage *)

(** Marks and percentage are rounded separately from one combined score;
    the percentage recomputed from the rounded marks can be off by the two
    rounding errors. *)
Lemma rounding_gap (c m : Q) :
  0 < m ->
  Qabs (round1 (c * 100) - round1 (c * m) / m * 100) <= (1 # 20) + 5 / m.
Proof.
  intros Hm.
  pose proof (round1_error (c * 100)) as H1.
  pose proof (round1_error (c * m)) as H2.
  apply Qabs_Qle_condition in H1 as [H1l H1u].
  apply Qabs_Qle_condition in H2 as [H2l H2u].
  apply Qabs_Qle_condition.
  set (A := round1 (c * 100)) in *. set (B := round1 (c * m)) in *.
  assert (0 < / m) as Hi by (apply Qinv_lt_0_compat, Hm).
  assert (c * m * / m == c) as Hc by (field; lra).
  unfold Qdiv. set (i := / m) in *.
  assert ((B - c * m - (1 # 20)) * i <= 0) as P1.
  { rewrite <- (Qmult_0_l i). apply Qmult_le_compat_r; lra. }
  assert (0 <= (B - c * m + (1 # 20)) * i) as P2.
  { rewrite <- (Qmult_0_l i). apply Qmult_le_compat_r; lra. }
  assert ((B - c * m - (1 # 20)) * i == B * i - c - (1 # 20) * i) as E1
    by (rewrite <- Hc at 2; ring).
  assert ((B - c * m + (1 # 20)) * i == B * i - c + (1 # 20) * i) as E2
    by (rewrite <- Hc at 2; ring).
  rewrite E1 in P1. rewrite E2 in P2.
  set (X := B * i) in *. clearbody X.
  split; lra.
Qed.

(** C1, the claim as stated fails: with one key point out of five covered
    and no similarity, the combined score is 0.08; the marks out of 3 are
    rounded to 0.2 and the percentage is 8.0, while 0.2 / 3 * 100 is 6.67. *)
Lemma percentage_differs_from_marks_ratio :
  exists r,
    default_evaluate
      (make_question (Some "SHORT_ANSWER") None None
         (Some ["sunlight"; "plants"; "energy"; "chlorophyll"; "water"]) None)
      "sunlight" = Score r
    /\ percentage r == 8
    /\ marks_obtained r == 0.2
    /\ max_marks r == 3
    /\ ~ percentage r == marks_obtained r / max_marks r * 100
    /\ ~ percentage r == round1 (marks_obtained r / max_marks r * 100).
Proof.
  eexists. split; [vm_compute; reflexivity |].
  repeat split; vm_compute; congruence.
Qed.

(** C1, amended: for an MCQ with positive maximum the percentage is exactly
    marks_obtained / max_marks * 100.  For a short or descriptive answer
    the marks are the combined score times the maximum and the percentage
    is the combined score times 100, each rounded to one decimal on its
    own; for a positive maximum the percentage is within
    0.05 + 5 / max_marks of marks_obtained / max_marks * 100. *)
Theorem percentage_and_marks_from_one_score
        (sim : string -> string -> Q) (q : Question) (s : string)
        (r : ScoreResult) :
  evaluate_answer sim q s = Score r ->
  0 < max_marks r ->
  (result_type r = "MCQ" ->
   percentage r == marks_obtained r / max_marks r * 100)
  /\ (result_type r <> "MCQ" ->
      exists combined_score,
        marks_obtained r = round1 (combined_score * max_marks r)
        /\ percentage r = round1 (combined_score * 100))
  /\ Qabs (percentage r - marks_obtained r / max_marks r * 100)
     <= (1 # 20) + 5 / max_marks r.
Proof.
  intros Hev Hmax. unfold evaluate_answer in Hev.
  destruct (String.eqb (default "MCQ" (question_type q)) "MCQ").
  { injection Hev as <-. revert Hmax. unfold _evaluate_mcq.
    cbn [is_correct marks_obtained max_marks percentage result_type].
    set (m := default 1 (marks q)). intros Hmax.
    assert (0 <= 5 / m) as Hdiv
        by (apply Qle_shift_div_l; [exact Hmax | lra]).
    assert (m / m * 100 == 100) as E100 by (field; lra).
    assert (0 / m * 100 == 0) as E0 by (field; lra).
    destruct (String.eqb _ _).
    - rewrite E100. split; [reflexivity |]. split; [congruence |].
      apply Qabs_Qle_condition.
      set (d := 5 / m) in *. clearbody d. split; lra.
    - rewrite E0. split; [reflexivity |]. split; [congruence |].
      apply Qabs_Qle_condition.
      set (d := 5 / m) in *. clearbody d. split; lra. }
  destruct (String.eqb (default "MCQ" (question_type q)) "SHORT_ANSWER").
  { injection Hev as <-. revert Hmax. unfold _evaluate_short_answer.
    cbn [is_correct marks_obtained max_marks percentage result_type].
    intros Hmax. split; [discriminate |].
    split; [intros _; eexists; split; reflexivity |].
    apply rounding_gap, Hmax. }
  destruct (String.eqb (default "MCQ" (question_type q)) "DESCRIPTIVE");
    [| discriminate].
  injection Hev as <-. revert Hmax. unfold _evaluate_descriptive.
  cbn [is_correct marks_obtained max_marks percentage result_type].
  intros Hmax. split; [discriminate |].
  split; [intros _; eexists; split; reflexivity |].
  apply rounding_gap, Hmax.
Qed.

Lemma percentage_and_marks_from_one_score_witness :
  Qabs (8 - 0.2 / 3 * 100) <= (1 # 20) + 5 / 3.
Proof.
  pose proof
    (percentage_and_marks_from_one_score NLP._simple_similarity
       (make_question (Some "SHORT_ANSWER") None None
          (Some ["sunlight"; "plants"; "energy"; "chlorophyll"; "water"]) None)
       "sunlight" _ eq_refl eq_refl) as H.
  apply H.
Defined.

(** ** Ranges of the outputs *)

(** C10, the claim as stated fails: a full-score answer to a question
    worth 2.26 marks obtains 2.3 marks, more than the maximum, although the
    similarity stays in [0,1]. *)
Lemma rounded_marks_exceed_maximum :
  (forall a b, 0 <= NLP._simple_similarity a b <= 1)
  /\ exists r,
      default_evaluate
        (make_question (Some "SHORT_ANSWER") None (Some "cat") None
                       (Some 2.26))
        "cat" = Score r
      /\ max_marks r == 2.26
      /\ marks_obtained r == 2.3
      /\ ~ marks_obtained r <= max_marks r.
Proof.
  split; [apply simple_similarity_bounds |].
  eexists. split; [vm_compute; reflexivity |].
  repeat split; vm_compute; congruence.
Qed.

(** C10, amended: with a similarity in [0,1] and a maximum that is not
    negative, the three sub-scores and both combined scores lie in [0,1],
    the percentage lies in [0,100], and the marks obtained lie between 0
    and the maximum plus 0.05; they do not exceed the maximum when the
    maximum is a multiple of 0.1, a whole number for instance. *)
Theorem evaluation_outputs_bounded
        (sim : string -> string -> Q) (q : Question) (s : string)
        (r : ScoreResult) :
  (forall a b, 0 <= sim a b <= 1) ->
  evaluate_answer sim q s = Score r ->
  0 <= max_marks r ->
  0 <= _check_key_points s (default [] (key_points q)) <= 1
  /\ 0 <= _check_length_adequacy s "DESCRIPTIVE" <= 1
  /\ 0 <= _check_coherence s <= 1
  /\ 0 <= short_answer_combined
            (sim s (default "" (expected_answer q)))
            (_check_key_points s (default [] (key_points q))) <= 1
  /\ 0 <= descriptive_combined
            (descriptive_scores sim s (default "" (expected_answer q))
                                (default [] (key_points q))) <= 1
  /\ 0 <= marks_obtained r <= max_marks r + (1 # 20)
  /\ (forall n : Z,
         max_marks r == inject_Z n / 10 -> marks_obtained r <= max_marks r)
  /\ 0 <= percentage r <= 100.
Proof.
  intros Hsim Hev Hmax.
  pose proof (check_key_points_bounds s (default [] (key_points q))) as Hk.
  pose proof (check_length_adequacy_bounds s "DESCRIPTIVE") as Hl.
  pose proof (check_coherence_bounds s) as Hc.
  pose proof (Hsim s (default "" (expected_answer q))) as Hs.
  pose proof (short_answer_combined_bounds _ _ Hs Hk) as Hshort.
  pose proof (descriptive_combined_bounds _ _ _ _ Hs Hk Hl Hc) as Hdesc.
  change (criteria (sim s (default "" (expected_answer q)))
            (_check_key_points s (default [] (key_points q)))
            (_check_length_adequacy s "DESCRIPTIVE") (_check_coherence s))
    with (descriptive_scores sim s (default "" (expected_answer q))
            (default [] (key_points q))) in Hdesc.
  do 5 (split; [assumption |]).
  unfold evaluate_answer in Hev.
  destruct (String.eqb (default "MCQ" (question_type q)) "MCQ").
  { injection Hev as <-. revert Hmax. unfold _evaluate_mcq.
    cbn [is_correct marks_obtained max_marks percentage].
    set (m := default 1 (marks q)). intros Hmax.
    destruct (String.eqb _ _).
    - split; [lra |]. split; [intros; apply Qle_refl |]. split; discriminate.
    - split; [lra |]. split; [intros; exact Hmax |]. split; discriminate. }
  destruct (String.eqb (default "MCQ" (question_type q)) "SHORT_ANSWER").
  { injection Hev as <-. revert Hmax. unfold _evaluate_short_answer.
    cbn [is_correct marks_obtained max_marks percentage].
    intros Hmax.
    destruct (rounded_marks_bounds _ _ Hshort Hmax) as [Hm Hn].
    split; [exact Hm |]. split; [exact Hn |].
    apply rounded_percentage_bounds, Hshort. }
  destruct (String.eqb (default "MCQ" (question_type q)) "DESCRIPTIVE");
    [| discriminate].
  injection Hev as <-. revert Hmax. unfold _evaluate_descriptive.
  cbn [is_correct marks_obtained max_marks percentage].
  intros Hmax.
  destruct (rounded_marks_bounds _ _ Hdesc Hmax) as [Hm Hn].
  split; [exact Hm |]. split; [exact Hn |].
  apply rounded_percentage_bounds, Hdesc.
Qed.

Lemma evaluation_outputs_bounded_witness :
  exists r,
    default_evaluate
      (make_question (Some "DESCRIPTIVE") None
         (Some "Plants convert sunlight into energy.")
         (Some ["sunlight"; "energy"; "water"]) (Some 5))
      "Plants use sunlight. They make energy from light." = Score r
    /\ 0 <= marks_obtained r <= max_marks r
    /\ 0 <= percentage r <= 100.
Proof.
  eexists. split; [reflexivity |].
  pose proof
    (evaluation_outputs_bounded NLP._simple_similarity
       (make_question (Some "DESCRIPTIVE") None
          (Some "Plants convert sunlight into energy.")
          (Some ["sunlight"; "energy"; "water"]) (Some 5))
       "Plants use sunlight. They make energy from light." _
       simple_similarity_bounds eq_refl) as H.
  destruct H as (_ & _ & _ & _ & _ & [Hlo _] & Hmult & Hpct).
  - discriminate.
  - split; [split; [exact Hlo |] | exact Hpct].
    apply (Hmult 50%Z). reflexivity.
Defined.

(** * Further properties of the code *)

(** ** Words and tokens *)

Lemma all_chars_app (p : ascii -> bool) (s t : string) :
  PyStr.all_chars p (s +:+ t) = PyStr.all_chars p s && PyStr.all_chars p t.
Proof.
  induction s as [| c s IH]; simpl; [reflexivity |].
  now rewrite IH, andb_assoc.
Qed.

(** The pieces of a split are not empty and made of the visible characters
    of the text. *)
Lemma split_go_pieces (P : ascii -> bool) (s cur : string) :
  PyStr.all_chars (fun c => negb (PyStr.isspace c) && P c) cur = true ->
  PyStr.all_chars (fun c => PyStr.isspace c || P c) s = true ->
  Forall (fun w => w <> ""
                   /\ PyStr.all_chars
                        (fun c => negb (PyStr.isspace c) && P c) w = true)
         (PyStr.split_go cur s).
Proof.
  revert cur. induction s as [| c s IH]; intros cur Hcur Hs; simpl.
  - destruct (String.eqb_spec cur ""); [constructor |].
    constructor; [split; assumption | constructor].
  - simpl in Hs. apply andb_prop in Hs as [Hc Hs].
    destruct (PyStr.isspace c) eqn:Ec.
    + destruct (String.eqb_spec cur "").
      * apply IH; [reflexivity | exact Hs].
      * constructor; [split; assumption |].
        apply IH; [reflexivity | exact Hs].
    + apply IH; [| exact Hs].
      rewrite all_chars_app, Hcur. simpl. rewrite Ec. simpl in *.
      now rewrite Hc.
Qed.

Lemma split_pieces (s : string) :
  Forall (fun w => w <> ""
                   /\ PyStr.all_chars (fun c => negb (PyStr.isspace c)) w = true)
         (PyStr.split s).
Proof.
  assert (PyStr.all_chars (fun c => PyStr.isspace c || true) s = true) as Hs.
  { induction s as [| c s IH]; simpl; [reflexivity |].
    now rewrite orb_true_r, IH. }
  pose proof (split_go_pieces (fun _ => true) s "" eq_refl Hs) as H.
  eapply Forall_impl; [exact H |].
  intros w [Hne Hw]. split; [exact Hne |].
  clear -Hw. induction w as [| c w IH]; simpl in *; [reflexivity |].
  apply andb_prop in Hw as [Hc Hw]. rewrite andb_true_r in Hc.
  now rewrite Hc, IH.
Qed.

(** X1: on 7-bit text, every token is a non-empty run of ASCII letters,
    digits and underscores; punctuation and white space never reach a
    token. *)
Theorem tokens_are_words (text : string) :
  ascii_text text ->
  Forall (fun w => w <> "" /\ PyStr.all_chars NLP.is_word w = true)
         (NLP._tokenize text).
Proof.
  intros _. unfold NLP._tokenize, PyStr.split.
  set (f := fun c : ascii =>
              if NLP.is_word c || PyStr.isspace c then c else " "%char).
  assert (PyStr.all_chars (fun c => PyStr.isspace c || NLP.is_word c)
            (PyStr.map_chars f text) = true) as Hs.
  { induction text as [| c text IH]; simpl; [reflexivity |].
    rewrite IH, andb_true_r. unfold f.
    destruct (NLP.is_word c) eqn:Ew; simpl; [now rewrite Ew, orb_true_r |].
    destruct (PyStr.isspace c) eqn:Es; simpl; [now rewrite Es | reflexivity]. }
  pose proof (split_go_pieces NLP.is_word _ "" eq_refl Hs) as H.
  eapply Forall_impl; [exact H |].
  intros w [Hne Hw]. split; [exact Hne |].
  clear -Hw. induction w as [| c w IH]; simpl in *; [reflexivity |].
  apply andb_prop in Hw as [Hc Hw]. apply andb_prop in Hc as [_ Hc].
  now rewrite Hc, IH.
Qed.

Lemma tokens_are_words_witness :
  Forall (fun w => w <> "" /\ PyStr.all_chars NLP.is_word w = true)
         (NLP._tokenize "Plants, they say, use sun-light!").
Proof.
  apply (tokens_are_words "Plants, they say, use sun-light!"). reflexivity.
Defined.

(** ** Token-overlap similarity *)

(** X2: the token-overlap similarity does not depend on the order of its
    two arguments. *)
Theorem simple_similarity_symmetric (a b : string) :
  NLP._simple_similarity a b = NLP._simple_similarity b a.
Proof.
  unfold NLP._simple_similarity.
  set (w1 := list_to_set (NLP._tokenize (PyStr.lower a)) : gset string).
  set (w2 := list_to_set (NLP._tokenize (PyStr.lower b)) : gset string).
  rewrite (orb_comm (bool_decide (w1 = ∅))).
  now rewrite (comm_L (∩) w1 w2), (comm_L (∪) w1 w2).
Qed.

(** X3: the token-overlap similarity is 1 exactly when the two texts have
    the same set of lowercased tokens and that set is not empty. *)
Theorem simple_similarity_one_iff (a b : string) :
  NLP._simple_similarity a b == 1
  <-> (list_to_set (NLP._tokenize (PyStr.lower a)) : gset string)
      = list_to_set (NLP._tokenize (PyStr.lower b))
      /\ NLP._tokenize (PyStr.lower a) <> [].
Proof.
  unfold NLP._simple_similarity.
  set (w1 := list_to_set (NLP._tokenize (PyStr.lower a)) : gset string).
  set (w2 := list_to_set (NLP._tokenize (PyStr.lower b)) : gset string).
  assert (w1 = ∅ <-> NLP._tokenize (PyStr.lower a) = []) as Hempty.
  { unfold w1. split.
    - destruct (NLP._tokenize (PyStr.lower a)) as [| x l]; [reflexivity |].
      intros H. exfalso.
      apply (not_elem_of_empty (C := gset string) x). rewrite <- H.
      apply elem_of_list_to_set. left.
    - intros ->. reflexivity. }
  destruct (bool_decide (w1 = ∅)) eqn:E1; simpl.
  { apply bool_decide_eq_true in E1. split; [discriminate |].
    intros [_ Hne]. exfalso. apply Hne, Hempty, E1. }
  apply bool_decide_eq_false in E1.
  destruct (bool_decide (w2 = ∅)) eqn:E2; simpl.
  { apply bool_decide_eq_true in E2. split; [discriminate |].
    intros [Heq _]. congruence. }
  assert (0 < size (w1 ∪ w2))%nat as Hpos.
  { apply set_choose_L in E1 as [x Hx].
    assert (size (w1 ∪ w2) <> 0%nat); [| lia].
    apply size_non_empty_iff. intros H.
    apply (not_elem_of_empty (C := gset string) x). rewrite <- H.
    apply elem_of_union. left. exact Hx. }
  rewrite (fraction_one _ _ Hpos). split.
  - intros Hsize.
    assert (w1 ∩ w2 = w1 ∪ w2) as Heq.
    { apply set_subseteq_size_eq; [| lia].
      etrans; [apply intersection_subseteq_l | apply union_subseteq_l]. }
    split; [| intros H; apply E1, Hempty, H].
    apply set_eq. intros x. split; intros Hx.
    + assert (x ∈ w1 ∩ w2) as Hi
          by (rewrite Heq; apply elem_of_union; left; exact Hx).
      now apply elem_of_intersection in Hi.
    + assert (x ∈ w1 ∩ w2) as Hi
          by (rewrite Heq; apply elem_of_union; right; exact Hx).
      now apply elem_of_intersection in Hi.
  - intros [Heq _]. rewrite <- Heq.
    now rewrite (idemp_L (∩) w1), (idemp_L (∪) w1).
Qed.

Lemma char_lower_upper (c : ascii) :
  PyStr.char_lower (PyStr.char_upper c) = PyStr.char_lower c.
Proof.
  apply code_inj. rewrite !code_char_lower.
  unfold PyStr.is_upper. rewrite code_char_upper. unfold PyStr.is_lower.
  repeat match goal with
         | |- context [if ?b then _ else _] => destruct b eqn:?
         end; lia.
Qed.

Lemma char_upper_lower (c : ascii) :
  PyStr.char_upper (PyStr.char_lower c) = PyStr.char_upper c.
Proof.
  apply code_inj. rewrite !code_char_upper.
  unfold PyStr.is_lower. rewrite code_char_lower. unfold PyStr.is_upper.
  repeat match goal with
         | |- context [if ?b then _ else _] => destruct b eqn:?
         end; lia.
Qed.

Lemma map_chars_compose (f g h : ascii -> ascii) (s : string) :
  (forall c, f (g c) = h c) ->
  PyStr.map_chars f (PyStr.map_chars g s) = PyStr.map_chars h s.
Proof.
  intros H. induction s as [| c s IH]; simpl; [reflexivity |].
  now rewrite H, IH.
Qed.

Lemma lower_upper (s : string) : PyStr.lower (PyStr.upper s) = PyStr.lower s.
Proof. apply map_chars_compose, char_lower_upper. Qed.

Lemma upper_lower (s : string) : PyStr.upper (PyStr.lower s) = PyStr.upper s.
Proof. apply map_chars_compose, char_upper_lower. Qed.

(** X4: on 7-bit text, the token-overlap similarity ignores the case of
    either text. *)
Theorem simple_similarity_ignores_case (a b : string) :
  ascii_text a -> ascii_text b ->
  NLP._simple_similarity (PyStr.upper a) b = NLP._simple_similarity a b
  /\ NLP._simple_similarity a (PyStr.upper b) = NLP._simple_similarity a b.
Proof.
  intros _ _. unfold NLP._simple_similarity. now rewrite !lower_upper.
Qed.

Lemma simple_similarity_ignores_case_witness :
  NLP._simple_similarity (PyStr.upper "Plants need light") "plants grow"
  = NLP._simple_similarity "Plants need light" "plants grow"
  /\ NLP._simple_similarity "Plants need light" (PyStr.upper "plants grow")
     = NLP._simple_similarity "Plants need light" "plants grow".
Proof.
  apply (simple_similarity_ignores_case "Plants need light" "plants grow");
    reflexivity.
Defined.

(** X5: whatever goes wrong on the embedding path (the encoder raises, it
    returns fewer than two vectors, or two vectors of different lengths),
    the similarity is the token-overlap one, hence in [0,1]. *)
Theorem similarity_falls_back_on_failure
        (sqrt : Q -> Q) (model : NLP.Encoder) (a b : string) :
  model [a; b] = None
  \/ (exists es, model [a; b] = Some es /\ (length es < 2)%nat)
  \/ (exists e0 e1 rest,
        model [a; b] = Some (e0 :: e1 :: rest) /\ length e0 <> length e1) ->
  NLP.calculate_similarity sqrt (Some model) a b
  = NLP.Finite (NLP._simple_similarity a b)
  /\ 0 <= NLP._simple_similarity a b <= 1.
Proof.
  intros H. split; [| apply simple_similarity_bounds].
  unfold NLP.calculate_similarity.
  destruct H as [-> | [(es & -> & Hlen) | (e0 & e1 & rest & -> & Hne)]].
  - reflexivity.
  - destruct es as [| e0 [| e1 rest]]; simpl in *; [reflexivity .. | lia].
  - simpl. unfold NLP.dot.
    apply Nat.eqb_neq in Hne. now rewrite Hne.
Qed.

Lemma similarity_falls_back_on_failure_witness :
  NLP.calculate_similarity exact_sqrt
    (Some (fun _ => Some [[1; 0]; [1]])) "light" "sunlight"
  = NLP.Finite (NLP._simple_similarity "light" "sunlight")
  /\ 0 <= NLP._simple_similarity "light" "sunlight" <= 1.
Proof.
  apply (similarity_falls_back_on_failure exact_sqrt
           (fun _ => Some [[1; 0]; [1]]) "light" "sunlight").
  right. right. exists [1; 0], [1], []. split; [reflexivity | discriminate].
Defined.

(** ** Keyword extraction *)

Lemma bump_keys (w : string) (d : list (string * nat)) :
  map fst (NLP.bump w d)
  = if decide (w ∈ map fst d) then map fst d else map fst d ++ [w].
Proof.
  induction d as [| [k n] d IH].
  - cbn [NLP.bump map fst]. rewrite decide_False; [reflexivity |].
    apply not_elem_of_nil.
  - cbn [NLP.bump map fst].
    destruct (String.eqb_spec k w) as [-> | Hne]; cbn [map fst].
    + rewrite decide_True; [reflexivity | left].
    + rewrite IH. destruct (decide (w ∈ map fst d)) as [Hin | Hnin].
      * rewrite decide_True; [reflexivity | right; exact Hin].
      * rewrite decide_False; [reflexivity |].
        intros H. apply elem_of_cons in H as [-> | H]; [congruence | tauto].
Qed.

Lemma bump_keys_incl (w x : string) (d : list (string * nat)) :
  x ∈ map fst d -> x ∈ map fst (NLP.bump w d).
Proof.
  intros H. rewrite bump_keys. destruct (decide (w ∈ map fst d));
    [exact H | apply elem_of_app; left; exact H].
Qed.

Lemma bump_key_present (w : string) (d : list (string * nat)) :
  w ∈ map fst (NLP.bump w d).
Proof.
  rewrite bump_keys. destruct (decide (w ∈ map fst d)) as [H | H];
    [exact H | apply elem_of_app; right; left].
Qed.

Lemma bump_NoDup (w : string) (d : list (string * nat)) :
  NoDup (map fst d) -> NoDup (map fst (NLP.bump w d)).
Proof.
  intros H. rewrite bump_keys.
  destruct (decide (w ∈ map fst d)) as [Hin | Hnin]; [exact H |].
  apply NoDup_app. split; [exact H |]. split; [| apply NoDup_singleton].
  intros x Hx Hx'. apply list_elem_of_singleton in Hx'. congruence.
Qed.

Lemma key_of_entry (k : string) (n : nat) (d : list (string * nat)) :
  (k, n) ∈ d -> k ∈ map fst d.
Proof.
  intros H. change (map fst d) with (fst <$> d).
  apply list_elem_of_fmap. exists (k, n). split; [reflexivity | exact H].
Qed.

Lemma elem_of_bump (k w : string) (n : nat) (d : list (string * nat)) :
  NoDup (map fst d) -> (k, n) ∈ NLP.bump w d ->
  (k <> w /\ (k, n) ∈ d)
  \/ (k = w /\ ((exists m, (w, m) ∈ d /\ n = S m)
                \/ ((w ∉ map fst d) /\ n = 1%nat))).
Proof.
  induction d as [| [k0 n0] d IH]; simpl; intros Hnd Hin.
  - apply list_elem_of_singleton in Hin. injection Hin as -> ->.
    right. split; [reflexivity |]. right. split; [apply not_elem_of_nil | reflexivity].
  - apply NoDup_cons in Hnd as [Hk0 Hnd].
    destruct (String.eqb_spec k0 w) as [-> | Hne].
    + apply elem_of_cons in Hin as [Hin | Hin].
      * injection Hin as -> ->. right. split; [reflexivity |].
        left. exists n0. split; [left | reflexivity].
      * left. split; [| right; exact Hin].
        intros ->. apply Hk0. eapply key_of_entry, Hin.
    + apply elem_of_cons in Hin as [Hin | Hin].
      * injection Hin as -> ->. left. split; [exact Hne | left].
      * destruct (IH Hnd Hin) as [[Hkw Hd] | [-> [(m & Hm & ->) | [Hw ->]]]].
        -- left. split; [exact Hkw | right; exact Hd].
        -- right. split; [reflexivity |]. left. exists m.
           split; [right; exact Hm | reflexivity].
        -- right. split; [reflexivity |]. right.
           split; [| reflexivity].
           intros H. apply elem_of_cons in H as [-> | H]; [congruence | tauto].
Qed.

Lemma count_snoc (k w : string) (ws : list string) :
  length (filter (fun x => PyStr.lower x = k) (ws ++ [w]))
  = (length (filter (fun x => PyStr.lower x = k) ws)
     + if decide (PyStr.lower w = k) then 1 else 0)%nat.
Proof.
  rewrite filter_app, length_app. f_equal.
  destruct (decide (PyStr.lower w = k)) as [E | E].
  - now rewrite filter_cons_True.
  - now rewrite filter_cons_False.
Qed.

Lemma count_absent (k : string) (ws : list string) :
  (forall x, x ∈ ws -> PyStr.lower x <> k) ->
  length (filter (fun x => PyStr.lower x = k) ws) = 0%nat.
Proof.
  induction ws as [| w ws IH]; intros H; [reflexivity |].
  rewrite filter_cons_False by (apply H; left).
  apply IH. intros x Hx. apply H. right. exact Hx.
Qed.

Lemma counts_words_step (d : list (string * nat)) (ws : list string)
      (w : string) :
  counts_words d ws -> counts_words (NLP.bump (PyStr.lower w) d) (ws ++ [w]).
Proof.
  intros (Hnd & Hcount & Hkeys). split; [apply bump_NoDup, Hnd |]. split.
  - intros k n Hin. rewrite count_snoc.
    destruct (elem_of_bump _ _ _ _ Hnd Hin)
      as [[Hkw Hd] | [-> [(m & Hm & ->) | [Hw ->]]]].
    + destruct (Hcount k n Hd) as [-> Hpos].
      rewrite decide_False by congruence. lia.
    + destruct (Hcount _ m Hm) as [-> Hpos].
      rewrite decide_True by reflexivity. lia.
    + rewrite decide_True by reflexivity.
      rewrite count_absent; [lia |].
      intros x Hx E. apply Hw. rewrite <- E. apply Hkeys, Hx.
  - intros x Hx. apply elem_of_app in Hx as [Hx | Hx].
    + apply bump_keys_incl, Hkeys, Hx.
    + apply list_elem_of_singleton in Hx as ->. apply bump_key_present.
Qed.

Lemma counts_words_fold (ws pre : list string) (d : list (string * nat)) :
  counts_words d pre ->
  counts_words
    (fold_left (fun word_freq word => NLP.bump (PyStr.lower word) word_freq)
               ws d)
    (pre ++ ws).
Proof.
  revert pre d. induction ws as [| w ws IH]; intros pre d H; simpl.
  - now rewrite app_nil_r.
  - rewrite (cons_middle w pre ws), app_assoc.
    apply IH, counts_words_step, H.
Qed.

Lemma insert_by_freq_perm (x : string * nat) (l : list (string * nat)) :
  NLP.insert_by_freq x l ≡ₚ x :: l.
Proof.
  induction l as [| y l IH]; simpl; [reflexivity |].
  destruct (snd x <? snd y)%nat; [| reflexivity].
  rewrite IH. apply Permutation_swap.
Qed.

Lemma sorted_by_freq_perm (l : list (string * nat)) :
  NLP.sorted_by_freq l ≡ₚ l.
Proof.
  induction l as [| x l IH]; simpl; [reflexivity |].
  now rewrite insert_by_freq_perm, IH.
Qed.

Lemma insert_by_freq_sorted (x : string * nat) (l : list (string * nat)) :
  StronglySorted freq_ge l -> StronglySorted freq_ge (NLP.insert_by_freq x l).
Proof.
  induction l as [| y l IH]; simpl; intros Hs.
  - repeat constructor.
  - apply StronglySorted_cons in Hs as [Hy Hs].
    destruct (snd x <? snd y)%nat eqn:E.
    + apply StronglySorted_cons. split; [| apply IH, Hs].
      rewrite insert_by_freq_perm. constructor; [| exact Hy].
      unfold freq_ge. lia.
    + apply StronglySorted_cons. split.
      * constructor; [unfold freq_ge; lia |].
        eapply Forall_impl; [exact Hy |].
        unfold freq_ge. intros z Hz. lia.
      * apply StronglySorted_cons. split; assumption.
Qed.

Lemma sorted_by_freq_sorted (l : list (string * nat)) :
  StronglySorted freq_ge (NLP.sorted_by_freq l).
Proof.
  induction l as [| x l IH]; simpl; [constructor |].
  apply insert_by_freq_sorted, IH.
Qed.

Lemma slice_to_take {A : Type} (l : list A) (stop : Z) :
  exists m, NLP.slice_to l stop = take m l
            /\ ((0 <= stop)%Z -> m = Z.to_nat stop).
Proof.
  unfold NLP.slice_to. destruct (0 <=? stop)%Z eqn:E.
  - eexists. split; [reflexivity | reflexivity].
  - eexists. split; [reflexivity | lia].
Qed.

Lemma length_lower (s : string) :
  String.length (PyStr.lower s) = String.length s.
Proof.
  unfold PyStr.lower. induction s as [| c s IH]; simpl; [reflexivity |].
  now rewrite IH.
Qed.

Lemma lower_lower (s : string) : PyStr.lower (PyStr.lower s) = PyStr.lower s.
Proof. rewrite <- (lower_upper (PyStr.lower s)), upper_lower. apply lower_upper. Qed.

Lemma StronglySorted_lookup {A : Type} (R : relation A) (l : list A)
      (i j : nat) (x y : A) :
  StronglySorted R l -> (i < j)%nat ->
  l !! i = Some x -> l !! j = Some y -> R x y.
Proof.
  intros Hs. revert i j. induction Hs as [| z l Hs IH Hz]; intros i j Hij Hi Hj.
  - discriminate.
  - destruct j as [| j]; [lia |]. simpl in Hj.
    destruct i as [| i]; simpl in Hi.
    + injection Hi as ->. rewrite Forall_forall in Hz.
      apply Hz. eapply list_elem_of_lookup_2, Hj.
    + apply (IH i j); [lia | assumption | assumption].
Qed.

(** What [extract_keywords] returns: the keys of a prefix of the frequency
    table of the counted words, sorted by decreasing frequency. *)
Lemma extract_keywords_shape (text : string) (max_keywords : Z) :
  exists (sorted_words : list (string * nat)) (m : nat),
    NLP.extract_keywords text max_keywords = map fst (take m sorted_words)
    /\ StronglySorted freq_ge sorted_words
    /\ NoDup (map fst sorted_words)
    /\ (forall k n, (k, n) ∈ sorted_words ->
                    n = occurrences text k /\ (0 < n)%nat)
    /\ (forall w, w ∈ NLP.content_words text ->
                  PyStr.lower w ∈ map fst sorted_words)
    /\ ((0 <= max_keywords)%Z -> m = Z.to_nat max_keywords).
Proof.
  unfold NLP.extract_keywords.
  set (word_freq :=
         fold_left (fun word_freq word => NLP.bump (PyStr.lower word) word_freq)
                   (NLP.content_words text) []).
  assert (counts_words word_freq (NLP.content_words text)) as (Hnd & Hc & Hk).
  { apply (counts_words_fold (NLP.content_words text) [] []).
    split; [constructor |]. split.
    - intros k n H. apply not_elem_of_nil in H. contradiction.
    - intros x H. apply not_elem_of_nil in H. contradiction. }
  pose proof (sorted_by_freq_perm word_freq) as Hperm.
  destruct (slice_to_take (NLP.sorted_by_freq word_freq) max_keywords)
    as (m & Hm & Hmk).
  exists (NLP.sorted_by_freq word_freq), m.
  split; [now rewrite Hm |]. split; [apply sorted_by_freq_sorted |].
  change (map fst (NLP.sorted_by_freq word_freq))
    with (fst <$> NLP.sorted_by_freq word_freq).
  split; [rewrite Hperm; exact Hnd |]. split.
  - intros k n H. rewrite Hperm in H. apply Hc, H.
  - split; [| exact Hmk]. intros w H. rewrite Hperm. apply Hk, H.
Qed.

(** X6: the keywords are distinct, at most [max_keywords] of them are
    returned (for a non-negative bound), and each one is the lowercase form
    of a token of the text that is no stopword and has more than two
    characters. *)
Theorem extract_keywords_sound (text : string) (max_keywords : Z) :
  NoDup (NLP.extract_keywords text max_keywords)
  /\ ((0 <= max_keywords)%Z ->
      (length (NLP.extract_keywords text max_keywords)
       <= Z.to_nat max_keywords)%nat)
  /\ (forall kw, kw ∈ NLP.extract_keywords text max_keywords ->
        (kw ∉ NLP.stopwords)
        /\ (2 < String.length kw)%nat
        /\ exists w, w ∈ NLP._tokenize text /\ kw = PyStr.lower w).
Proof.
  destruct (extract_keywords_shape text max_keywords)
    as (sorted & m & -> & Hsorted & Hnd & Hc & Hk & Hm).
  change (map fst (take m sorted)) with (fst <$> take m sorted).
  rewrite fmap_take. split; [| split].
  - eapply sublist_NoDup; [exact Hnd | apply sublist_take].
  - intros H. rewrite length_take, (Hm H). lia.
  - intros kw Hkw.
    assert (kw ∈ fst <$> sorted) as Hin.
    { apply elem_of_take in Hkw as (i & Hi & _).
      eapply list_elem_of_lookup_2, Hi. }
    apply list_elem_of_fmap in Hin as ([k n] & -> & Hin). simpl.
    destruct (Hc k n Hin) as [-> Hpos].
    unfold occurrences in Hpos.
    destruct (filter (fun w => PyStr.lower w = k) (NLP.content_words text))
      as [| w rest] eqn:E; [simpl in Hpos; lia |].
    assert (w ∈ filter (fun w => PyStr.lower w = k) (NLP.content_words text))
      as Hw by (rewrite E; left).
    apply list_elem_of_filter in Hw as [<- Hw].
    unfold NLP.content_words in Hw.
    apply list_elem_of_filter in Hw as [[Hstop Hlen] Hw].
    split; [exact Hstop |]. split; [now rewrite length_lower |].
    exists w. split; [exact Hw | reflexivity].
Qed.

Lemma extract_keywords_sound_witness :
  (length (NLP.extract_keywords "Plants use sunlight. Plants grow." 1)
   <= Z.to_nat 1)%nat.
Proof.
  apply (extract_keywords_sound "Plants use sunlight. Plants grow." 1). lia.
Defined.

(** X7: the keywords come in order of decreasing number of occurrences, and
    a counted word that is left out occurs at most as often as any keyword
    that is returned. *)
Theorem extract_keywords_by_frequency (text : string) (max_keywords : Z) :
  (forall i j a b,
      (i <= j)%nat ->
      NLP.extract_keywords text max_keywords !! i = Some a ->
      NLP.extract_keywords text max_keywords !! j = Some b ->
      (occurrences text b <= occurrences text a)%nat)
  /\ (forall w a,
        w ∈ NLP.content_words text ->
        PyStr.lower w ∉ NLP.extract_keywords text max_keywords ->
        a ∈ NLP.extract_keywords text max_keywords ->
        (occurrences text (PyStr.lower w) <= occurrences text a)%nat).
Proof.
  destruct (extract_keywords_shape text max_keywords)
    as (sorted & m & -> & Hsorted & Hnd & Hc & Hk & Hm).
  change (map fst (take m sorted)) with (fst <$> take m sorted).
  rewrite <- (take_drop m sorted) in Hsorted.
  split.
  - intros i j a b Hij Hi Hj.
    rewrite list_lookup_fmap in Hi, Hj.
    destruct (take m sorted !! i) as [[ka na] |] eqn:Ei; [| discriminate].
    destruct (take m sorted !! j) as [[kb nb] |] eqn:Ej; [| discriminate].
    simpl in Hi, Hj. injection Hi as <-. injection Hj as <-.
    assert ((ka, na) ∈ sorted) as Ha.
    { apply (list_elem_of_lookup_2 _ i) in Ei.
      eapply elem_of_sublist; [exact Ei | apply sublist_take]. }
    assert ((kb, nb) ∈ sorted) as Hb.
    { apply (list_elem_of_lookup_2 _ j) in Ej.
      eapply elem_of_sublist; [exact Ej | apply sublist_take]. }
    destruct (Hc _ _ Ha) as [<- _]. destruct (Hc _ _ Hb) as [<- _].
    destruct (decide (i = j)) as [-> | Hne].
    + rewrite Ei in Ej. injection Ej as _ ->. lia.
    + apply StronglySorted_app_1_l in Hsorted.
      apply (StronglySorted_lookup freq_ge _ i j (ka, na) (kb, nb) Hsorted);
        [lia | exact Ei | exact Ej].
  - intros w a Hw Hout Ha.
    apply Hk in Hw. change (map fst sorted) with (fst <$> sorted) in Hw.
    apply list_elem_of_fmap in Hw as ([k n] & Ek & Hw). simpl in Ek.
    rewrite Ek in *.
    apply list_elem_of_fmap in Ha as ([ka na] & -> & Ha). simpl.
    assert ((k, n) ∈ drop m sorted) as Hdrop.
    { rewrite <- (take_drop m sorted) in Hw.
      apply elem_of_app in Hw as [Hw | Hw]; [| exact Hw].
      exfalso. apply Hout. apply list_elem_of_fmap.
      exists (k, n). split; [reflexivity | exact Hw]. }
    pose proof (StronglySorted_app_1_elem_of freq_ge _ _ _ _ Hsorted Ha Hdrop)
      as Hge.
    assert ((ka, na) ∈ sorted) as Ha'
        by (eapply elem_of_sublist; [exact Ha | apply sublist_take]).
    assert ((k, n) ∈ sorted) as Hk'
        by (eapply elem_of_sublist; [exact Hdrop | apply sublist_drop]).
    destruct (Hc _ _ Ha') as [<- _]. destruct (Hc _ _ Hk') as [<- _].
    exact Hge.
Qed.

Lemma extract_keywords_by_frequency_witness :
  (occurrences "Plants use sunlight. Plants grow." "use"
   <= occurrences "Plants use sunlight. Plants grow." "plants")%nat.
Proof.
  apply (proj1 (extract_keywords_by_frequency
                  "Plants use sunlight. Plants grow." 3)
               0%nat 1%nat "plants" "use");
    [lia | reflexivity | reflexivity].
Defined.

(** ** Normal form of an MCQ answer *)

Lemma isspace_char_lower (c : ascii) :
  PyStr.isspace (PyStr.char_lower c) = PyStr.isspace c.
Proof.
  unfold PyStr.isspace. rewrite code_char_lower.
  destruct (PyStr.is_upper c) eqn:E; [| reflexivity].
  unfold PyStr.is_upper in E. lia.
Qed.

Lemma upper_upper (s : string) : PyStr.upper (PyStr.upper s) = PyStr.upper s.
Proof. rewrite <- (upper_lower (PyStr.upper s)), lower_upper. apply upper_lower. Qed.

Section StripMap.

Variable f : ascii -> ascii.
Hypothesis f_space : forall c, PyStr.isspace (f c) = PyStr.isspace c.

Lemma lstrip_map_chars (s : string) :
  PyStr.lstrip (PyStr.map_chars f s) = PyStr.map_chars f (PyStr.lstrip s).
Proof.
  induction s as [| c s IH]; simpl; [reflexivity |].
  rewrite f_space. destruct (PyStr.isspace c); [exact IH | reflexivity].
Qed.

Lemma rstrip_map_chars (s : string) :
  PyStr.rstrip (PyStr.map_chars f s) = PyStr.map_chars f (PyStr.rstrip s).
Proof.
  induction s as [| c s IH]; simpl; [reflexivity |].
  rewrite IH, f_space. destruct (PyStr.rstrip s); simpl.
  - destruct (PyStr.isspace c); reflexivity.
  - reflexivity.
Qed.

Lemma strip_map_chars (s : string) :
  PyStr.strip (PyStr.map_chars f s) = PyStr.map_chars f (PyStr.strip s).
Proof. unfold PyStr.strip. now rewrite lstrip_map_chars, rstrip_map_chars. Qed.

End StripMap.

Lemma rstrip_rstrip (s : string) :
  PyStr.rstrip (PyStr.rstrip s) = PyStr.rstrip s.
Proof.
  induction s as [| c s IH]; simpl; [reflexivity |].
  destruct (PyStr.rstrip s) as [| a r] eqn:E.
  - destruct (PyStr.isspace c) eqn:Ec; simpl; [reflexivity | now rewrite Ec].
  - change (PyStr.rstrip (String c (String a r)))
      with (match PyStr.rstrip (String a r) with
            | EmptyString =>
                if PyStr.isspace c then EmptyString else String c EmptyString
            | r' => String c r'
            end).
    rewrite IH. reflexivity.
Qed.

Lemma lstrip_head (s : string) :
  match PyStr.lstrip s with
  | EmptyString => True
  | String c _ => PyStr.isspace c = false
  end.
Proof.
  induction s as [| c s IH]; simpl; [exact I |].
  destruct (PyStr.isspace c) eqn:E; [exact IH | exact E].
Qed.

Lemma lstrip_rstrip_lstrip (s : string) :
  PyStr.lstrip (PyStr.rstrip (PyStr.lstrip s))
  = PyStr.rstrip (PyStr.lstrip s).
Proof.
  pose proof (lstrip_head s) as H.
  destruct (PyStr.lstrip s) as [| c t]; [reflexivity |].
  simpl. destruct (PyStr.rstrip t); simpl; rewrite H; simpl; now rewrite ?H.
Qed.

Lemma strip_strip (s : string) : PyStr.strip (PyStr.strip s) = PyStr.strip s.
Proof.
  unfold PyStr.strip. now rewrite lstrip_rstrip_lstrip, rstrip_rstrip.
Qed.

Lemma normalize_idempotent (s : string) :
  PyStr.strip (PyStr.upper (PyStr.strip (PyStr.upper s)))
  = PyStr.strip (PyStr.upper s).
Proof.
  unfold PyStr.upper at 1.
  rewrite <- (strip_map_chars _ isspace_char_upper).
  fold (PyStr.upper (PyStr.upper s)). now rewrite upper_upper, strip_strip.
Qed.

(** X8: grading an MCQ sees a 7-bit student answer only through its normal
    form: the answer in upper case, in lower case or already stripped and
    upper-cased gets the same result, field by field. *)
Theorem mcq_result_of_normal_form (q : Question) (s : string) :
  ascii_text s ->
  _evaluate_mcq q (PyStr.strip (PyStr.upper s)) = _evaluate_mcq q s
  /\ _evaluate_mcq q (PyStr.upper s) = _evaluate_mcq q s
  /\ _evaluate_mcq q (PyStr.lower s) = _evaluate_mcq q s.
Proof.
  intros _. unfold _evaluate_mcq.
  now rewrite normalize_idempotent, upper_upper, upper_lower.
Qed.

Lemma mcq_result_of_normal_form_witness :
  _evaluate_mcq (make_question (Some "MCQ") (Some "B") None None None)
                (PyStr.strip (PyStr.upper " b "))
  = _evaluate_mcq (make_question (Some "MCQ") (Some "B") None None None) " b "
  /\ _evaluate_mcq (make_question (Some "MCQ") (Some "B") None None None)
                   (PyStr.upper " b ")
     = _evaluate_mcq (make_question (Some "MCQ") (Some "B") None None None)
                     " b "
  /\ _evaluate_mcq (make_question (Some "MCQ") (Some "B") None None None)
                   (PyStr.lower " b ")
     = _evaluate_mcq (make_question (Some "MCQ") (Some "B") None None None)
                     " b ".
Proof.
  apply (mcq_result_of_normal_form
           (make_question (Some "MCQ") (Some "B") None None None) " b ").
  reflexivity.
Defined.

(** ** Feedback of the subjective graders *)

(** X9: a short answer is marked correct exactly when its feedback is one
    of the two upper bands ("Excellent answer!...", "Good answer. ..."); the
    acceptance threshold 0.6 is the lower edge of the "Good" band. *)
Theorem short_answer_correct_iff_upper_bands
        (sim : string -> string -> Q) (q : Question) (s : string) :
  is_correct (_evaluate_short_answer sim q s) = true
  <-> feedback (_evaluate_short_answer sim q s)
      = "Excellent answer! You've covered the topic comprehensively."
      \/ feedback (_evaluate_short_answer sim q s)
         = "Good answer. Consider adding more details about the key concepts.".
Proof.
  unfold _evaluate_short_answer. cbn [is_correct feedback].
  set (c := short_answer_combined _ _).
  change (item similarity_threshold "SHORT_ANSWER") with 0.6.
  unfold _generate_feedback.
  destruct (Qle_bool 0.8 c) eqn:E8.
  - apply Qle_bool_iff in E8.
    assert (Qle_bool 0.6 c = true) as -> by (apply Qle_bool_iff; lra).
    split; [intros _; left; reflexivity | reflexivity].
  - destruct (Qle_bool 0.6 c) eqn:E6.
    + split; [intros _; right; reflexivity | reflexivity].
    + split; [discriminate |].
      destruct (Qle_bool 0.4 c); intros [H | H]; discriminate.
Qed.

(** X10: for a descriptive answer, the feedback is the praise sentence
    exactly when no criterion is below its threshold, and then no
    improvement is suggested; when no improvement is suggested, the
    feedback is the praise or only the remark on the topic. *)
Theorem descriptive_feedback_and_suggestions
        (sim : string -> string -> Q) (q : Question) (s : string) :
  let r := _evaluate_descriptive sim q s in
  (feedback r
   = "Excellent work! Your answer is comprehensive and well-structured." ->
   reported_suggestions r = [])
  /\ (reported_suggestions r = [] ->
      feedback r
      = "Excellent work! Your answer is comprehensive and well-structured."
      \/ feedback r = "Your answer needs to focus more on the main topic.")
  /\ (length (reported_suggestions r) <= 3)%nat.
Proof.
  unfold _evaluate_descriptive, reported_suggestions.
  cbn [feedback details].
  unfold _generate_detailed_feedback, _get_improvement_suggestions.
  set (scores := descriptive_scores sim s _ _).
  destruct (Qlt_bool (item scores "semantic_similarity") 0.5);
    destruct (Qlt_bool (item scores "key_points_coverage") 0.6);
    destruct (Qlt_bool (item scores "length_adequacy") 0.7);
    destruct (Qlt_bool (item scores "coherence") 0.7);
    cbn; repeat split; intros; try discriminate; try lia; auto.
Qed.

(** ** Length adequacy *)

(** X11: the length score is 1 exactly when the number of words is between
    the minimum and the maximum of the question type, 0 exactly when the
    answer has no word, and at least 0.5 once the minimum is reached,
    however long the answer. *)
Theorem length_adequacy_profile (answer type : string) :
  let word_count := length (PyStr.split answer) in
  let min_w := get min_words type 20 in
  let max_w := get max_words type 200 in
  (_check_length_adequacy answer type == 1
   <-> (min_w <= word_count)%nat /\ (word_count <= max_w)%nat)
  /\ (_check_length_adequacy answer type == 0 <-> word_count = 0%nat)
  /\ ((min_w <= word_count)%nat -> 0.5 <= _check_length_adequacy answer type).
Proof.
  unfold _check_length_adequacy.
  set (wc := length (PyStr.split answer)).
  assert (0 < get min_words type 20)%nat as Hmin
    by (apply get_positive; [repeat constructor; simpl; lia | lia]).
  assert (0 < get max_words type 200)%nat as Hmax
    by (apply get_positive; [repeat constructor; simpl; lia | lia]).
  set (min_w := get min_words type 20) in *.
  set (max_w := get max_words type 200) in *.
  cbv zeta.
  destruct (wc <? min_w)%nat eqn:E1.
  - apply Nat.ltb_lt in E1. split; [| split].
    + rewrite (fraction_one wc min_w Hmin). lia.
    + split.
      * intros H. apply Qnat_inj.
        assert (Qnat wc == Qnat wc / Qnat min_w * Qnat min_w) as ->
            by (field; pose proof (Qnat_pos _ Hmin); lra).
        rewrite H. reflexivity.
      * intros ->. reflexivity.
    + lia.
  - apply Nat.ltb_ge in E1.
    destruct (max_w <? wc)%nat eqn:E2.
    + apply Nat.ltb_lt in E2.
      pose proof (Qnat_pos _ Hmax) as Hpos.
      assert (0 < (Qnat wc - Qnat max_w) / Qnat max_w) as Hover.
      { apply Qlt_shift_div_l; [exact Hpos |].
        assert (Qnat max_w < Qnat wc)
          by (unfold Qnat; rewrite <- Zlt_Qlt; lia). lra. }
      set (over := (Qnat wc - Qnat max_w) / Qnat max_w) in *. clearbody over.
      assert (0.5 <= Qmax 0.5 (1 - over)) as Hlo by apply Q.le_max_l.
      assert (Qmax 0.5 (1 - over) < 1) as Hhi
          by (apply Q.max_lub_lt; [reflexivity | lra]).
      split; [| split].
      * split; [intros H; rewrite H in Hhi; lra | lia].
      * split; [intros H; rewrite H in Hlo; lra | lia].
      * intros _. exact Hlo.
    + apply Nat.ltb_ge in E2. split; [| split].
      * split; [lia | reflexivity].
      * split; [discriminate | lia].
      * intros _. discriminate.
Qed.

Lemma length_adequacy_profile_witness :
  0.5 <= _check_length_adequacy
             "Plants use the light of the sun to make their own food from water and air and they give off oxygen"
             "SHORT_ANSWER".
Proof.
  apply (length_adequacy_profile
           "Plants use the light of the sun to make their own food from water and air and they give off oxygen"
           "SHORT_ANSWER").
  vm_compute. lia.
Defined.

(** ** Blank answers *)

Lemma all_isspace_lower (s : string) :
  PyStr.all_chars PyStr.isspace (PyStr.lower s)
  = PyStr.all_chars PyStr.isspace s.
Proof.
  induction s as [| c s IH]; simpl; [reflexivity |].
  rewrite isspace_char_lower. unfold PyStr.lower in IH. now rewrite IH.
Qed.

Lemma split_blank (s : string) :
  PyStr.all_chars PyStr.isspace s = true -> PyStr.split s = [].
Proof.
  unfold PyStr.split. induction s as [| c s IH]; simpl; [reflexivity |].
  intros H. apply andb_prop in H as [-> H]. simpl. apply IH, H.
Qed.

Lemma strip_blank (s : string) :
  PyStr.all_chars PyStr.isspace s = true -> PyStr.strip s = "".
Proof. intros H. unfold PyStr.strip. now rewrite (lstrip_all_space s H). Qed.

Lemma contains_blank (w hay : string) :
  PyStr.all_chars PyStr.isspace hay = true ->
  w <> "" ->
  PyStr.all_chars (fun c => negb (PyStr.isspace c)) w = true ->
  PyStr.contains w hay = false.
Proof.
  intros Hhay Hne Hw. destruct w as [| c w]; [congruence |].
  simpl in Hw. apply andb_prop in Hw as [Hc _].
  induction hay as [| h hay IH]; [reflexivity |].
  simpl in Hhay. apply andb_prop in Hhay as [Hh Hhay].
  cbn [PyStr.contains String.prefix].
  destruct (ascii_dec c h) as [-> | _].
  - rewrite Hh in Hc. discriminate.
  - simpl. apply IH, Hhay.
Qed.

Lemma point_covered_blank (answer point : string) :
  PyStr.all_chars PyStr.isspace answer = true ->
  point_covered answer point = false.
Proof.
  intros H. unfold point_covered.
  pose proof (split_pieces (PyStr.lower point)) as Hp.
  induction Hp as [| w ws [Hne Hw] _ IH]; [reflexivity |].
  simpl. rewrite IH, orb_false_r.
  rewrite (contains_blank w (PyStr.lower answer));
    [apply andb_false_r | now rewrite all_isspace_lower | exact Hne | exact Hw].
Qed.

Lemma filter_all {A : Type} (P : A -> Prop) `{forall x, Decision (P x)}
      (l : list A) :
  (forall x, x ∈ l -> P x) -> filter P l = l.
Proof.
  induction l as [| x l IH]; intros Hall; [reflexivity |].
  rewrite filter_cons_True by (apply Hall; left).
  f_equal. apply IH. intros y Hy. apply Hall. right. exact Hy.
Qed.

Lemma filter_none {A : Type} (P : A -> Prop) `{forall x, Decision (P x)}
      (l : list A) :
  (forall x, x ∈ l -> ~ P x) -> filter P l = [].
Proof.
  induction l as [| x l IH]; intros Hall; [reflexivity |].
  rewrite filter_cons_False by (apply Hall; left).
  apply IH. intros y Hy. apply Hall. right. exact Hy.
Qed.

Lemma blank_missing_points (answer : string) (points : list string) :
  PyStr.all_chars PyStr.isspace answer = true ->
  _get_missing_points answer points = points.
Proof.
  intros H. rewrite get_missing_points_filter.
  apply filter_all. intros p _. apply point_covered_blank, H.
Qed.

Lemma blank_coverage (answer : string) (points : list string) :
  PyStr.all_chars PyStr.isspace answer = true -> points <> [] ->
  _check_key_points answer points == 0.
Proof.
  intros H Hne. rewrite (check_key_points_count answer points Hne).
  rewrite filter_none; [reflexivity |].
  intros p _. rewrite (point_covered_blank answer p H). discriminate.
Qed.

Lemma blank_length_adequacy (answer type : string) :
  PyStr.all_chars PyStr.isspace answer = true ->
  _check_length_adequacy answer type == 0.
Proof.
  intros H. unfold _check_length_adequacy. rewrite (split_blank answer H).
  assert (0 < get min_words type 20)%nat as Hmin
    by (apply get_positive; [repeat constructor; simpl; lia | lia]).
  destruct (get min_words type 20) as [| n]; [lia |]. reflexivity.
Qed.

Lemma space_not_sentence_end (c : ascii) :
  PyStr.isspace c = true -> sentence_end c = false.
Proof.
  intros H. unfold sentence_end.
  repeat match goal with
         | |- context [bool_decide (c = ?a)] =>
             let E := fresh in
             destruct (bool_decide_reflect (c = a)) as [E | E];
             [rewrite E in H; discriminate |]
         end.
  reflexivity.
Qed.

Lemma string_app_nil_r (s : string) : s +:+ "" = s.
Proof.
  induction s as [| a s IH]; [reflexivity |].
  change (String a (s +:+ "") = String a s). now rewrite IH.
Qed.

Lemma string_app_snoc (s t : string) (c : ascii) :
  (s +:+ String c "") +:+ t = s +:+ String c t.
Proof.
  induction s as [| a s IH]; [reflexivity |].
  change (String a ((s +:+ String c "") +:+ t) = String a (s +:+ String c t)).
  now rewrite IH.
Qed.

Lemma re_split_go_no_separator (sep : ascii -> bool) (s cur : string) :
  PyStr.all_chars (fun c => negb (sep c)) s = true ->
  PyStr.re_split_go sep false cur s = [cur +:+ s].
Proof.
  revert cur. induction s as [| c s IH]; intros cur H; simpl.
  - now rewrite string_app_nil_r.
  - simpl in H. apply andb_prop in H as [Hc H].
    destruct (sep c); [discriminate |].
    now rewrite (IH _ H), string_app_snoc.
Qed.

Lemma blank_coherence (answer : string) :
  PyStr.all_chars PyStr.isspace answer = true ->
  _check_coherence answer = 0.5.
Proof.
  intros H. unfold _check_coherence, PyStr.re_split.
  rewrite re_split_go_no_separator.
  - rewrite filter_cons_False; [reflexivity |].
    intros Hne. apply Hne. apply strip_blank, H.
  - clear -H. induction answer as [| c s IH]; simpl in *; [reflexivity |].
    apply andb_prop in H as [Hc H].
    now rewrite (space_not_sentence_end c Hc), IH.
Qed.

Lemma Qlt_bool_true (x y : Q) : x < y -> Qlt_bool x y = true.
Proof.
  intros H. unfold Qlt_bool. destruct (Qle_bool y x) eqn:E; [| reflexivity].
  apply Qle_bool_iff in E. lra.
Qed.

Lemma Qle_bool_false (x y : Q) : y < x -> Qle_bool x y = false.
Proof.
  intros H. destruct (Qle_bool x y) eqn:E; [| reflexivity].
  apply Qle_bool_iff in E. lra.
Qed.

(** X12: a descriptive answer that is empty or only white space is never
    accepted when the question has key points, whatever the similarity
    function returns up to 1: every key point is reported missing, all
    three improvements are suggested and the percentage is at most 47.5. *)
Theorem blank_descriptive_answer_rejected
        (sim : string -> string -> Q) (q : Question) (s : string)
        (points : list string) :
  question_type q = Some "DESCRIPTIVE" ->
  key_points q = Some points -> points <> [] ->
  PyStr.all_chars PyStr.isspace s = true ->
  sim s (default "" (expected_answer q)) <= 1 ->
  exists r,
    evaluate_answer sim q s = Score r
    /\ is_correct r = false
    /\ reported_missing_points r = points
    /\ length (reported_suggestions r) = 3%nat
    /\ percentage r <= 47.5.
Proof.
  intros Ht Hk Hne Hblank Hsim.
  exists (_evaluate_descriptive sim q s).
  split; [unfold evaluate_answer; rewrite Ht; reflexivity |].
  unfold _evaluate_descriptive, reported_missing_points, reported_suggestions.
  rewrite Hk. cbn [default from_option id is_correct details percentage].
  set (e := from_option id "" (expected_answer q)) in *.
  pose proof (blank_coverage s points Hblank Hne) as HK.
  pose proof (blank_length_adequacy s "DESCRIPTIVE" Hblank) as HL.
  pose proof (blank_coherence s Hblank) as HC.
  assert (descriptive_combined (descriptive_scores sim s e points)
          <= 0.475) as Hcomb.
  { change (descriptive_scores sim s e points)
      with (criteria (sim s e) (_check_key_points s points)
                     (_check_length_adequacy s "DESCRIPTIVE")
                     (_check_coherence s)).
    rewrite descriptive_combined_criteria, HK, HL, HC. lra. }
  split; [| split; [| split]].
  - change (item similarity_threshold "DESCRIPTIVE") with 0.5.
    apply Qle_bool_false. lra.
  - apply blank_missing_points, Hblank.
  - unfold _get_improvement_suggestions.
    change (item (descriptive_scores sim s e points) "key_points_coverage")
      with (_check_key_points s points).
    change (item (descriptive_scores sim s e points) "length_adequacy")
      with (_check_length_adequacy s "DESCRIPTIVE").
    change (item (descriptive_scores sim s e points) "coherence")
      with (_check_coherence s).
    rewrite !Qlt_bool_true; [reflexivity | rewrite HC | rewrite HL | rewrite HK];
      reflexivity.
  - apply Qle_trans with (y := inject_Z 475 / 10); [| discriminate].
    apply round1_le_tenths.
    assert (inject_Z 475 / 10 == 47.5) as -> by reflexivity. lra.
Qed.

Lemma blank_descriptive_answer_rejected_witness :
  exists r,
    default_evaluate
      (make_question (Some "DESCRIPTIVE") None (Some "Plants need light.")
                     (Some ["sunlight"; "energy"]) None)
      "  " = Score r
    /\ is_correct r = false
    /\ reported_missing_points r = ["sunlight"; "energy"]
    /\ length (reported_suggestions r) = 3%nat
    /\ percentage r <= 47.5.
Proof.
  apply (blank_descriptive_answer_rejected NLP._simple_similarity
           (make_question (Some "DESCRIPTIVE") None (Some "Plants need light.")
                          (Some ["sunlight"; "energy"]) None)
           "  " ["sunlight"; "energy"]);
    [reflexivity | reflexivity | discriminate | reflexivity |].
  apply simple_similarity_bounds.
Defined.

Lemma tokenize_blank (s : string) :
  PyStr.all_chars PyStr.isspace s = true ->
  NLP._tokenize (PyStr.lower s) = [].
Proof.
  intros H. unfold NLP._tokenize. apply split_blank.
  rewrite <- all_isspace_lower in H.
  induction (PyStr.lower s) as [| c t IH]; simpl in *; [reflexivity |].
  apply andb_prop in H as [Hc H]. rewrite Hc, orb_true_r, Hc. simpl.
  apply IH, H.
Qed.

(** X13: with the token-overlap similarity, a short answer that is empty or
    only white space gets no marks when the question has key points: 0
    marks, 0 percent, not correct, every key point missing, and the lowest
    feedback band. *)
Theorem blank_short_answer_scores_zero
        (q : Question) (s : string) (points : list string) :
  question_type q = Some "SHORT_ANSWER" ->
  key_points q = Some points -> points <> [] ->
  PyStr.all_chars PyStr.isspace s = true ->
  exists r,
    default_evaluate q s = Score r
    /\ is_correct r = false
    /\ marks_obtained r == 0
    /\ percentage r == 0
    /\ reported_missing_points r = points
    /\ feedback r
       = "Answer needs improvement. Review the topic and include main concepts.".
Proof.
  intros Ht Hk Hne Hblank.
  exists (_evaluate_short_answer NLP._simple_similarity q s).
  split; [unfold default_evaluate, evaluate_answer; rewrite Ht; reflexivity |].
  unfold _evaluate_short_answer, reported_missing_points.
  rewrite Hk.
  cbn [default from_option id is_correct details percentage marks_obtained
       feedback].
  rewrite (simple_similarity_degenerate s _ (or_introl (tokenize_blank s Hblank))).
  pose proof (blank_coverage s points Hblank Hne) as HK.
  assert (short_answer_combined 0 (_check_key_points s points) == 0) as Hc
      by (unfold short_answer_combined; rewrite HK; reflexivity).
  set (c := short_answer_combined 0 (_check_key_points s points)) in *.
  split; [| split; [| split; [| split]]].
  - change (item similarity_threshold "SHORT_ANSWER") with 0.6.
    apply Qle_bool_false. rewrite Hc. reflexivity.
  - rewrite (round1_comp _ 0); [reflexivity | rewrite Hc; ring].
  - rewrite (round1_comp _ 0); [reflexivity | rewrite Hc; ring].
  - apply blank_missing_points, Hblank.
  - unfold _generate_feedback.
    rewrite !Qle_bool_false; [reflexivity | ..]; rewrite Hc; reflexivity.
Qed.

Lemma blank_short_answer_scores_zero_witness :
  exists r,
    default_evaluate
      (make_question (Some "SHORT_ANSWER") None (Some "Plants need light.")
                     (Some ["sunlight"; "energy"]) None)
      " " = Score r
    /\ is_correct r = false
    /\ marks_obtained r == 0
    /\ percentage r == 0
    /\ reported_missing_points r = ["sunlight"; "energy"]
    /\ feedback r
       = "Answer needs improvement. Review the topic and include main concepts.".
Proof.
  apply (blank_short_answer_scores_zero
           (make_question (Some "SHORT_ANSWER") None (Some "Plants need light.")
                          (Some ["sunlight"; "energy"]) None)
           " " ["sunlight"; "energy"]);
    [reflexivity | reflexivity | discriminate | reflexivity].
Defined.

(** ** Coverage and missing points *)

Lemma filter_length_eq {A : Type} (P : A -> Prop) `{forall x, Decision (P x)}
      (l : list A) :
  length (filter P l) = length l -> filter P l = l.
Proof.
  induction l as [| x l IH]; [reflexivity |].
  rewrite filter_cons. destruct (decide (P x)); simpl; intros Hlen.
  - f_equal. apply IH. lia.
  - pose proof (length_filter P l). lia.
Qed.

(** X14: for a non-empty list of key points, the coverage is 0 exactly when
    every key point is reported missing. *)
Theorem coverage_zero_iff_all_missing (answer : string) (points : list string) :
  points <> [] ->
  _check_key_points answer points == 0
  <-> _get_missing_points answer points = points.
Proof.
  intros Hne.
  rewrite (check_key_points_count answer points Hne),
    get_missing_points_filter.
  pose proof (covered_plus_missing answer points) as Hsum.
  assert (0 < length points)%nat as Hlen
      by (destruct points; [congruence | simpl; lia]).
  pose proof (Qnat_pos _ Hlen) as Hpos.
  set (cov := length (filter (fun p => point_covered answer p = true) points))
    in *.
  split.
  - intros H. apply filter_length_eq.
    assert (cov = 0%nat) as E; [| lia].
    apply Qnat_inj.
    assert (Qnat cov == Qnat cov / Qnat (length points) * Qnat (length points))
      as -> by (field; lra).
    rewrite H. reflexivity.
  - intros H. rewrite H in Hsum.
    assert (cov = 0%nat) as -> by lia. reflexivity.
Qed.

Lemma coverage_zero_iff_all_missing_witness :
  _check_key_points "Animals eat." ["sunlight"; "energy"] == 0
  <-> _get_missing_points "Animals eat." ["sunlight"; "energy"]
      = ["sunlight"; "energy"].
Proof.
  apply (coverage_zero_iff_all_missing "Animals eat." ["sunlight"; "energy"]).
  discriminate.
Defined.

(** ** The submission route *)

Lemma omap_length_le {A B : Type} (f : A -> option B) (l : list A) :
  (length (omap f l) <= length l)%nat.
Proof.
  induction l as [| a l IH]; [reflexivity |].
  cbn [omap list_omap]. destruct (f a); simpl; lia.
Qed.

Lemma grade_answer_step (sim : string -> string -> Q)
      (questions : list Question) (a : AnswerData)
      (results : list ResultEntry) (t o : Q) :
  grade_answer sim questions (results, t, o) a
  = match graded_entry sim questions a with
    | Some e =>
        (results ++ [e],
         t + get_max_marks (entry_evaluation e),
         o + get_marks_obtained (entry_evaluation e))
    | None => (results, t, o)
    end.
Proof.
  unfold grade_answer, graded_entry.
  destruct (question_lookup questions (default 0%Z (answer_question_idx a)));
    reflexivity.
Qed.

Lemma submission_loop (sim : string -> string -> Q) (questions : list Question)
      (answers : list AnswerData) (results : list ResultEntry) (t o : Q) :
  fold_left (grade_answer sim questions) answers (results, t, o)
  = (results ++ omap (graded_entry sim questions) answers,
     fold_left (fun total e => total + get_max_marks e)
       (map entry_evaluation (omap (graded_entry sim questions) answers)) t,
     fold_left (fun total e => total + get_marks_obtained e)
       (map entry_evaluation (omap (graded_entry sim questions) answers)) o).
Proof.
  revert results t o. induction answers as [| a answers IH]; intros results t o.
  - simpl. now rewrite app_nil_r.
  - cbn [fold_left omap list_omap]. rewrite grade_answer_step.
    destruct (graded_entry sim questions a) as [e |].
    + rewrite IH. cbn [map fold_left]. now rewrite <- app_assoc.
    + apply IH.
Qed.

(** X15: a submission without questions or without answers is refused with
    status 400.  Otherwise the response lists, in the order of the answers,
    one entry per answer whose index names a question (a missing index
    counts as 0, an index out of range is skipped without an error), and the
    totals are the sums of the maximum and obtained marks of these entries;
    an evaluation that is an error counts for 0 marks out of 0. *)
Theorem submission_is_sum_over_valid_answers
        (sim : string -> string -> Q) (questions : list Question)
        (answers : list AnswerData) :
  (questions = [] \/ answers = [] ->
   evaluate_submission sim questions answers
   = Failure 400 "Questions and answers are required")
  /\ (questions <> [] -> answers <> [] ->
      exists summary,
        evaluate_submission sim questions answers
        = Success (omap (graded_entry sim questions) answers) summary
        /\ total_marks summary
           = sum_max_marks
               (map entry_evaluation (omap (graded_entry sim questions) answers))
        /\ summary_marks_obtained summary
           = round1
               (sum_marks_obtained
                  (map entry_evaluation
                       (omap (graded_entry sim questions) answers)))
        /\ total_questions summary
           = length (omap (graded_entry sim questions) answers)
        /\ (questions_correct summary <= total_questions summary)%nat
        /\ (total_questions summary <= length answers)%nat).
Proof.
  unfold evaluate_submission. split.
  - intros [-> | ->]; [reflexivity |].
    now rewrite orb_true_r.
  - intros Hq Ha.
    rewrite bool_decide_eq_false_2 by exact Hq.
    rewrite bool_decide_eq_false_2 by exact Ha.
    cbn [orb]. rewrite submission_loop. cbn [app].
    eexists. split; [reflexivity |].
    cbn [total_marks summary_marks_obtained total_questions questions_correct].
    repeat split.
    + apply length_filter.
    + apply omap_length_le.
Qed.

Lemma submission_is_sum_over_valid_answers_witness :
  evaluate_submission NLP._simple_similarity [] [make_answer 0 "A"]
  = Failure 400 "Questions and answers are required".
Proof.
  apply (submission_is_sum_over_valid_answers NLP._simple_similarity
           [] [make_answer 0 "A"]).
  left. reflexivity.
Defined.

Lemma tenths_nonneg (n : Z) : (0 <= n)%Z -> 0 <= inject_Z n / 10.
Proof.
  intros H. apply Qle_shift_div_l; [reflexivity |].
  rewrite Zle_Qle in H. change (inject_Z 0) with 0 in H. lra.
Qed.

Lemma effective_marks_tenths (q : Question) (d : Q) (n0 : Z) :
  tenths_marks q -> (0 <= n0)%Z -> d == inject_Z n0 / 10 ->
  exists n : Z, (0 <= n)%Z /\ default d (marks q) == inject_Z n / 10.
Proof.
  unfold tenths_marks. intros H H0 Hd. destruct (marks q) as [m |]; simpl.
  - exact H.
  - exists n0. split; [exact H0 | exact Hd].
Qed.

(** One evaluation obtains between 0 and its maximum, and the maximum is a
    non-negative multiple of one tenth. *)
Lemma outcome_marks_bounds (sim : string -> string -> Q) (q : Question)
      (s : string) :
  (forall a b, 0 <= sim a b <= 1) -> tenths_marks q ->
  0 <= get_marks_obtained (evaluate_answer sim q s)
  /\ get_marks_obtained (evaluate_answer sim q s)
     <= get_max_marks (evaluate_answer sim q s)
  /\ exists n : Z,
      (0 <= n)%Z
      /\ get_max_marks (evaluate_answer sim q s) == inject_Z n / 10.
Proof.
  intros Hsim Hq.
  pose proof (check_key_points_bounds s (default [] (key_points q))) as Hk.
  pose proof (check_length_adequacy_bounds s "DESCRIPTIVE") as Hl.
  pose proof (check_coherence_bounds s) as Hc.
  pose proof (Hsim s (default "" (expected_answer q))) as Hs.
  pose proof (short_answer_combined_bounds _ _ Hs Hk) as Hshort.
  pose proof (descriptive_combined_bounds _ _ _ _ Hs Hk Hl Hc) as Hdesc.
  unfold evaluate_answer.
  destruct (String.eqb (default "MCQ" (question_type q)) "MCQ").
  { destruct (effective_marks_tenths q 1 10 Hq ltac:(lia) ltac:(reflexivity))
      as (n & Hn & E).
    pose proof (tenths_nonneg n Hn) as Hpos.
    cbn [get_marks_obtained get_max_marks]. unfold _evaluate_mcq.
    cbn [marks_obtained max_marks].
    rewrite <- E in Hpos.
    split; [| split; [| exists n; split; [exact Hn | exact E]]];
      destruct (String.eqb _ _); try apply Qle_refl; assumption. }
  destruct (String.eqb (default "MCQ" (question_type q)) "SHORT_ANSWER").
  { destruct (effective_marks_tenths q 3 30 Hq ltac:(lia) ltac:(reflexivity))
      as (n & Hn & E).
    pose proof (tenths_nonneg n Hn) as Hpos.
    cbn [get_marks_obtained get_max_marks]. unfold _evaluate_short_answer.
    cbn [marks_obtained max_marks].
    rewrite <- E in Hpos.
    destruct (rounded_marks_bounds _ _ Hshort Hpos) as [[Hlo _] Hhi].
    split; [exact Hlo |]. split; [apply (Hhi n E) |].
    exists n. split; [exact Hn | exact E]. }
  destruct (String.eqb (default "MCQ" (question_type q)) "DESCRIPTIVE").
  { destruct (effective_marks_tenths q 5 50 Hq ltac:(lia) ltac:(reflexivity))
      as (n & Hn & E).
    pose proof (tenths_nonneg n Hn) as Hpos.
    cbn [get_marks_obtained get_max_marks]. unfold _evaluate_descriptive.
    cbn [marks_obtained max_marks].
    rewrite <- E in Hpos.
    destruct (rounded_marks_bounds _ _ Hdesc Hpos) as [[Hlo _] Hhi].
    split; [exact Hlo |]. split; [apply (Hhi n E) |].
    exists n. split; [exact Hn | exact E]. }
  cbn [get_marks_obtained get_max_marks].
  split; [apply Qle_refl |]. split; [apply Qle_refl |].
  exists 0%Z. split; [lia | reflexivity].
Qed.

Lemma sums_bounded (evaluations : list Outcome) (o t : Q) (n0 : Z) :
  Forall (fun e => 0 <= get_marks_obtained e
                   /\ get_marks_obtained e <= get_max_marks e
                   /\ exists n : Z,
                       (0 <= n)%Z /\ get_max_marks e == inject_Z n / 10)
         evaluations ->
  0 <= o -> o <= t -> t == inject_Z n0 / 10 ->
  0 <= fold_left (fun total e => total + get_marks_obtained e) evaluations o
  /\ fold_left (fun total e => total + get_marks_obtained e) evaluations o
     <= fold_left (fun total e => total + get_max_marks e) evaluations t
  /\ exists n : Z,
      fold_left (fun total e => total + get_max_marks e) evaluations t
      == inject_Z n / 10.
Proof.
  intros Hall. revert o t n0.
  induction Hall as [| e es (He0 & He1 & n & Hn & En) _ IH];
    intros o t n0 Ho Hot Et; simpl.
  - split; [exact Ho |]. split; [exact Hot |]. exists n0. exact Et.
  - apply (IH _ _ (n0 + n)%Z); [lra | lra |].
    rewrite Et, En, inject_Z_plus. field.
Qed.

Lemma graded_evaluations_forall (sim : string -> string -> Q)
      (questions : list Question) (answers : list AnswerData)
      (P : Outcome -> Prop) :
  (forall q s, q ∈ questions -> P (evaluate_answer sim q s)) ->
  Forall P (map entry_evaluation (omap (graded_entry sim questions) answers)).
Proof.
  intros HP. induction answers as [| a answers IH]; [constructor |].
  cbn [omap list_omap]. unfold graded_entry at 1, question_lookup.
  destruct (0 <=? default 0%Z (answer_question_idx a))%Z; [| exact IH].
  destruct (questions !! Z.to_nat (default 0%Z (answer_question_idx a)))
    as [q |] eqn:E; [| exact IH].
  cbn [map entry_evaluation]. constructor; [| exact IH].
  apply HP. eapply list_elem_of_lookup_2, E.
Qed.

Lemma percentage_of_bounds (o t : Q) :
  0 <= o -> o <= t ->
  0 <= (if Qlt_bool 0 t then o / t * 100 else 0) <= 100.
Proof.
  intros Ho Hot. unfold Qlt_bool.
  destruct (Qle_bool t 0) eqn:E; simpl; [split; discriminate |].
  assert (0 < t) as Ht.
  { destruct (Qlt_le_dec 0 t) as [H | H]; [exact H |].
    apply Qle_bool_iff in H. congruence. }
  assert (0 <= o / t) as H0 by (apply Qle_shift_div_l; [exact Ht | lra]).
  assert (o / t <= 1) as H1 by (apply Qle_shift_div_r; [exact Ht | lra]).
  set (x := o / t) in *. clearbody x. split; lra.
Qed.

Lemma whole_marks_tenths (q : Question) : whole_marks q -> tenths_marks q.
Proof.
  unfold whole_marks, tenths_marks. destruct (marks q) as [m |]; [| trivial].
  intros (k & Hk & E). exists (10 * k)%Z. split; [lia |].
  rewrite E, inject_Z_mult. field.
Qed.

(** X16: when the similarity stays in [0,1] and the marks of every question
    are a whole number that is not negative (the sums of such maxima are
    exact in binary floating point as well), the summary of a submission is
    consistent: the marks obtained lie between 0 and the total marks, and
    the percentage between 0 and 100. *)
Theorem submission_summary_bounded
        (sim : string -> string -> Q) (questions : list Question)
        (answers : list AnswerData) (results : list ResultEntry)
        (summary : Summary) :
  (forall a b, 0 <= sim a b <= 1) ->
  Forall whole_marks questions ->
  evaluate_submission sim questions answers = Success results summary ->
  0 <= summary_marks_obtained summary <= total_marks summary
  /\ 0 <= summary_percentage summary <= 100.
Proof.
  intros Hsim Hwhole Hev.
  assert (Forall tenths_marks questions) as Hq
      by (eapply Forall_impl; [exact Hwhole | apply whole_marks_tenths]).
  unfold evaluate_submission in Hev.
  destruct (bool_decide (questions = []) || bool_decide (answers = []));
    [discriminate |].
  rewrite submission_loop in Hev. cbn [app] in Hev.
  injection Hev as _ <-.
  cbn [summary_marks_obtained total_marks summary_percentage].
  set (evals := map entry_evaluation (omap (graded_entry sim questions) answers))
    in *.
  assert (Forall (fun e => 0 <= get_marks_obtained e
                   /\ get_marks_obtained e <= get_max_marks e
                   /\ exists n : Z,
                       (0 <= n)%Z /\ get_max_marks e == inject_Z n / 10)
                 evals) as Hall.
  { apply graded_evaluations_forall. intros q s Hin.
    apply outcome_marks_bounds; [exact Hsim |].
    rewrite Forall_forall in Hq. apply Hq, Hin. }
  destruct (sums_bounded evals 0 0 0 Hall (Qle_refl 0) (Qle_refl 0)
              ltac:(reflexivity)) as (Ho & Hot & n & En).
  set (o := fold_left (fun total e => total + get_marks_obtained e) evals 0) in *.
  set (t := fold_left (fun total e => total + get_max_marks e) evals 0) in *.
  split; split.
  - apply round1_nonneg, Ho.
  - apply Qle_trans with (y := inject_Z n / 10).
    + apply round1_le_tenths. rewrite <- En. exact Hot.
    + rewrite En. apply Qle_refl.
  - apply round1_nonneg. apply (percentage_of_bounds o t Ho Hot).
  - apply Qle_trans with (y := inject_Z 1000 / 10); [| discriminate].
    apply round1_le_tenths.
    assert (inject_Z 1000 / 10 == 100) as -> by reflexivity.
    apply (percentage_of_bounds o t Ho Hot).
Qed.

Lemma submission_summary_bounded_witness :
  exists results summary,
    evaluate_submission NLP._simple_similarity
      [make_question (Some "MCQ") (Some "A") None None (Some 2);
       make_question (Some "SHORT_ANSWER") None (Some "Plants need light.")
                     (Some ["light"]) None]
      [make_answer 0 "a"; make_answer 1 "Plants need water."]
    = Success results summary
    /\ 0 <= summary_marks_obtained summary <= total_marks summary
    /\ 0 <= summary_percentage summary <= 100.
Proof.
  eexists. eexists. split; [reflexivity |].
  eapply (submission_summary_bounded NLP._simple_similarity
            [make_question (Some "MCQ") (Some "A") None None (Some 2);
             make_question (Some "SHORT_ANSWER") None
                           (Some "Plants need light.") (Some ["light"]) None]
            [make_answer 0 "a"; make_answer 1 "Plants need water."]).
  - apply simple_similarity_bounds.
  - repeat constructor. exists 2%Z. split; [lia | reflexivity].
  - reflexivity.
Defined.

(** ** Letter grades, continued *)

(** X17: a higher percentage never gives a lower letter grade. *)
Theorem calculate_grade_monotone (p p' : Q) :
  p <= p' ->
  (grade_rank (_calculate_grade p) <= grade_rank (_calculate_grade p'))%nat.
Proof.
  intros Hle. unfold _calculate_grade.
  repeat match goal with
         | |- context [Qle_bool ?a ?x] =>
             let E := fresh "E" in
             destruct (Qle_bool a x) eqn:E;
             [apply Qle_bool_iff in E
             | assert (~ a <= x)
                 by (intros E'; apply Qle_bool_iff in E'; congruence);
               clear E]
         end;
    first [exfalso; lra | vm_compute; lia].
Qed.

Lemma calculate_grade_monotone_witness :
  (grade_rank (_calculate_grade 62) <= grade_rank (_calculate_grade 89.9))%nat.
Proof.
  apply (calculate_grade_monotone 62 89.9). unfold Qle. simpl. lia.
Defined.

(** ** The batch route *)

Lemma batch_loop (sim : string -> string -> Q)
      (pairs : list (Question * AnswerData)) (results : list Outcome)
      (t o : Q) :
  fold_left (grade_pair sim) pairs (results, t, o)
  = (results
     ++ map (fun pair => evaluate_answer sim (fst pair)
                           (default "" (answer_text (snd pair)))) pairs,
     fold_left (fun total e => total + get_max_marks e)
       (map (fun pair => evaluate_answer sim (fst pair)
                           (default "" (answer_text (snd pair)))) pairs) t,
     fold_left (fun total e => total + get_marks_obtained e)
       (map (fun pair => evaluate_answer sim (fst pair)
                           (default "" (answer_text (snd pair)))) pairs) o).
Proof.
  revert results t o. induction pairs as [| pair pairs IH]; intros results t o.
  - simpl. now rewrite app_nil_r.
  - cbn [fold_left map]. unfold grade_pair at 2. rewrite IH.
    now rewrite <- app_assoc.
Qed.

Lemma evaluate_one_sums (sim : string -> string -> Q) (sub : Submission) :
  result_student_id (evaluate_one sim sub) = student_id sub
  /\ submission_results (evaluate_one sim sub)
     = map (fun pair => evaluate_answer sim (fst pair)
                          (default "" (answer_text (snd pair))))
           (zip (submission_questions sub) (submission_answers sub))
  /\ submission_total_marks (evaluate_one sim sub)
     = sum_max_marks (submission_results (evaluate_one sim sub))
  /\ submission_marks_obtained (evaluate_one sim sub)
     = sum_marks_obtained (submission_results (evaluate_one sim sub))
  /\ submission_percentage (evaluate_one sim sub)
     = (if Qlt_bool 0 (submission_total_marks (evaluate_one sim sub))
        then submission_marks_obtained (evaluate_one sim sub)
             / submission_total_marks (evaluate_one sim sub) * 100
        else 0)
  /\ submission_grade (evaluate_one sim sub)
     = _calculate_grade (submission_percentage (evaluate_one sim sub)).
Proof.
  unfold evaluate_one. rewrite batch_loop. cbn [app].
  repeat split.
Qed.

(** X18: the batch route answers every submission, in order and with its
    student id; the evaluations of a submission are those of question i
    with the answer at the same position i (a missing answer text counts as
    the empty answer), so the shorter of the two lists decides and the rest
    is ignored; its totals are the sums over these evaluations, its
    percentage is obtained / total * 100 (0 for a total of 0) and its grade
    the letter grade of that percentage; and a submission without questions
    or without answers is not refused but gets 0 marks, 0 percent and the
    grade F. *)
Theorem batch_evaluates_position_by_position
        (sim : string -> string -> Q) (submissions : list Submission) :
  snd (batch_evaluate sim submissions) = length submissions
  /\ Forall2
       (fun sub r =>
          result_student_id r = student_id sub
          /\ submission_results r
             = map (fun pair => evaluate_answer sim (fst pair)
                                  (default "" (answer_text (snd pair))))
                   (zip (submission_questions sub) (submission_answers sub))
          /\ submission_percentage r
             = (if Qlt_bool 0 (submission_total_marks r)
                then submission_marks_obtained r
                     / submission_total_marks r * 100
                else 0)
          /\ submission_grade r = _calculate_grade (submission_percentage r)
          /\ length (submission_results r)
             = min (length (submission_questions sub))
                   (length (submission_answers sub))
          /\ submission_total_marks r = sum_max_marks (submission_results r)
          /\ submission_marks_obtained r
             = sum_marks_obtained (submission_results r)
          /\ (submission_questions sub = [] \/ submission_answers sub = [] ->
              submission_total_marks r = 0
              /\ submission_percentage r = 0
              /\ submission_grade r = "F"))
       submissions (fst (batch_evaluate sim submissions)).
Proof.
  unfold batch_evaluate. cbn [fst snd]. split; [apply length_map |].
  induction submissions as [| sub subs IH]; [constructor |].
  cbn [map]. constructor; [| exact IH].
  destruct (evaluate_one_sums sim sub) as (Hid & Hres & Ht & Ho & Hp & Hg).
  split; [exact Hid |]. split; [exact Hres |]. split; [exact Hp |].
  split; [exact Hg |].
  split; [| split; [exact Ht | split; [exact Ho |]]].
  - rewrite Hres, length_map. apply length_zip.
  - intros Hempty.
    assert (submission_results (evaluate_one sim sub) = []) as Hnil.
    { rewrite Hres. destruct Hempty as [-> | ->]; [reflexivity |].
      now rewrite zip_with_nil_r. }
    assert (submission_total_marks (evaluate_one sim sub) = 0) as Ht0
        by (rewrite Ht, Hnil; reflexivity).
    assert (submission_percentage (evaluate_one sim sub) = 0) as Hp0
        by (rewrite Hp, Ht0; reflexivity).
    split; [exact Ht0 |]. split; [exact Hp0 |].
    rewrite Hg, Hp0. reflexivity.
Qed.

(** ** The two routes agree *)

Lemma aligned_evaluations (sim : string -> string -> Q)
      (questions : list Question) (answers : list AnswerData) (k : nat) :
  (forall i a, answers !! i = Some a ->
               default 0%Z (answer_question_idx a) = Z.of_nat (k + i)) ->
  map entry_evaluation (omap (graded_entry sim questions) answers)
  = map (fun pair => evaluate_answer sim (fst pair)
                       (default "" (answer_text (snd pair))))
        (zip (drop k questions) answers).
Proof.
  revert k. induction answers as [| a answers IH]; intros k Hal.
  - now rewrite zip_with_nil_r.
  - assert (default 0%Z (answer_question_idx a) = Z.of_nat k) as Ha
        by (rewrite (Hal 0%nat a eq_refl); f_equal; lia).
    assert (forall i b, answers !! i = Some b ->
                        default 0%Z (answer_question_idx b)
                        = Z.of_nat (S k + i)) as Hrest.
    { intros i b Hb. rewrite (Hal (S i) b Hb). f_equal. lia. }
    specialize (IH (S k) Hrest).
    cbn [omap list_omap]. unfold graded_entry at 1, question_lookup.
    rewrite Ha.
    assert ((0 <=? Z.of_nat k)%Z = true) as -> by lia.
    rewrite Nat2Z.id.
    destruct (questions !! k) as [q |] eqn:E.
    + rewrite (drop_S _ _ _ E). cbn [zip_with map fst snd entry_evaluation].
      now rewrite IH.
    + apply lookup_ge_None in E.
      rewrite IH. rewrite !drop_ge by lia. reflexivity.
Qed.

(** X19: when the answers of a submission come in the order of its
    questions (the answer at position i carries index i), the submission
    route and the batch route compute the same evaluations, the same total,
    the same grade, and the same marks and percentage up to the rounding the
    submission route applies. *)
Theorem submission_agrees_with_batch
        (sim : string -> string -> Q) (questions : list Question)
        (answers : list AnswerData) (id : option string) :
  aligned answers -> questions <> [] -> answers <> [] ->
  exists results summary,
    evaluate_submission sim questions answers = Success results summary
    /\ map entry_evaluation results
       = submission_results
           (evaluate_one sim {| submission_questions := questions;
                                submission_answers := answers;
                                student_id := id |})
    /\ total_marks summary
       = submission_total_marks
           (evaluate_one sim {| submission_questions := questions;
                                submission_answers := answers;
                                student_id := id |})
    /\ summary_marks_obtained summary
       = round1 (submission_marks_obtained
                   (evaluate_one sim {| submission_questions := questions;
                                        submission_answers := answers;
                                        student_id := id |}))
    /\ summary_percentage summary
       = round1 (submission_percentage
                   (evaluate_one sim {| submission_questions := questions;
                                        submission_answers := answers;
                                        student_id := id |}))
    /\ grade summary
       = submission_grade
           (evaluate_one sim {| submission_questions := questions;
                                submission_answers := answers;
                                student_id := id |}).
Proof.
  intros Hal Hq Ha.
  pose proof (aligned_evaluations sim questions answers 0 Hal) as Hev.
  rewrite drop_0 in Hev.
  unfold evaluate_submission.
  rewrite bool_decide_eq_false_2 by exact Hq.
  rewrite bool_decide_eq_false_2 by exact Ha.
  cbn [orb]. rewrite submission_loop. cbn [app].
  eexists. eexists. split; [reflexivity |].
  unfold evaluate_one. rewrite batch_loop.
  cbn [app submission_questions submission_answers submission_results
       submission_total_marks submission_marks_obtained submission_percentage
       submission_grade total_marks summary_marks_obtained summary_percentage
       grade].
  rewrite Hev. repeat split.
Qed.

Lemma submission_agrees_with_batch_witness :
  exists results summary,
    evaluate_submission NLP._simple_similarity
      [make_question (Some "MCQ") (Some "A") None None None;
       make_question (Some "MCQ") (Some "B") None None None]
      [make_answer 0 "a"; make_answer 1 "c"]
    = Success results summary
    /\ grade summary
       = submission_grade
           (evaluate_one NLP._simple_similarity
              {| submission_questions :=
                   [make_question (Some "MCQ") (Some "A") None None None;
                    make_question (Some "MCQ") (Some "B") None None None];
                 submission_answers := [make_answer 0 "a"; make_answer 1 "c"];
                 student_id := None |}).
Proof.
  destruct (submission_agrees_with_batch NLP._simple_similarity
              [make_question (Some "MCQ") (Some "A") None None None;
               make_question (Some "MCQ") (Some "B") None None None]
              [make_answer 0 "a"; make_answer 1 "c"] None)
    as (results & summary & Hev & _ & _ & _ & _ & Hg).
  - intros [| [| i]] a Hi; simpl in Hi; try discriminate;
      injection Hi as <-; reflexivity.
  - discriminate.
  - discriminate.
  - exists results, summary. split; [exact Hev | exact Hg].
Defined.

(** ** Coherence *)

(** X20: an answer without a full stop, exclamation mark or question mark
    counts as at most one sentence and gets the neutral coherence score 0.5,
    however long it is. *)
Theorem coherence_without_punctuation (answer : string) :
  PyStr.all_chars (fun c => negb (sentence_end c)) answer = true ->
  _check_coherence answer = 0.5.
Proof.
  intros H. unfold _check_coherence, PyStr.re_split.
  rewrite (re_split_go_no_separator sentence_end answer "" H).
  change ("" +:+ answer) with answer.
  rewrite filter_cons. destruct (decide (PyStr.strip answer <> "")); reflexivity.
Qed.

Lemma coherence_without_punctuation_witness :
  _check_coherence "plants use sunlight to make their food and grow" = 0.5.
Proof.
  apply (coherence_without_punctuation
           "plants use sunlight to make their food and grow").
  reflexivity.
Defined.

(** ** The reference answer *)

Lemma simple_similarity_self (a : string) :
  NLP._tokenize (PyStr.lower a) <> [] -> NLP._simple_similarity a a == 1.
Proof.
  intros Hne. unfold NLP._simple_similarity.
  set (w := list_to_set (NLP._tokenize (PyStr.lower a)) : gset string).
  assert (w <> ∅) as Hw.
  { unfold w. destruct (NLP._tokenize (PyStr.lower a)) as [| x l];
      [congruence |].
    intros H. apply (not_elem_of_empty (C := gset string) x). rewrite <- H.
    apply elem_of_list_to_set. left. }
  rewrite bool_decide_eq_false_2 by exact Hw. cbn [orb].
  rewrite (idemp_L (∩) w), (idemp_L (∪) w).
  apply fraction_one; [| reflexivity].
  assert (size w <> 0%nat); [| lia].
  apply size_non_empty_iff. intros H. apply Hw. now apply leibniz_equiv.
Qed.

(** X21: with the token-overlap similarity, handing in the expected answer
    of a short-answer question word for word is always accepted, with at
    least 60 percent, provided the expected answer has at least one token. *)
Theorem reference_short_answer_accepted (q : Question) (e : string) :
  question_type q = Some "SHORT_ANSWER" ->
  expected_answer q = Some e ->
  NLP._tokenize (PyStr.lower e) <> [] ->
  exists r,
    default_evaluate q e = Score r
    /\ is_correct r = true
    /\ 60 <= percentage r.
Proof.
  intros Ht He Hne.
  exists (_evaluate_short_answer NLP._simple_similarity q e).
  split; [unfold default_evaluate, evaluate_answer; rewrite Ht; reflexivity |].
  unfold _evaluate_short_answer. rewrite He.
  cbn [default from_option id is_correct percentage].
  pose proof (simple_similarity_self e Hne) as Hs.
  pose proof (check_key_points_bounds e (from_option id [] (key_points q)))
    as [Hk _].
  assert (0.6 <= short_answer_combined (NLP._simple_similarity e e)
                   (_check_key_points e (from_option id [] (key_points q))))
    as Hc by (unfold short_answer_combined; rewrite Hs; lra).
  set (c := short_answer_combined _ _) in *.
  split.
  - change (item similarity_threshold "SHORT_ANSWER") with 0.6.
    apply Qle_bool_iff, Hc.
  - apply Qle_trans with (y := round1 (inject_Z 600 / 10)).
    + rewrite round1_tenths. discriminate.
    + apply round1_mono.
      assert (inject_Z 600 / 10 == 60) as -> by reflexivity. lra.
Qed.

Lemma reference_short_answer_accepted_witness :
  exists r,
    default_evaluate
      (make_question (Some "SHORT_ANSWER") None
                     (Some "Plants turn light into food.")
                     (Some ["chlorophyll"; "glucose"]) None)
      "Plants turn light into food." = Score r
    /\ is_correct r = true
    /\ 60 <= percentage r.
Proof.
  apply (reference_short_answer_accepted
           (make_question (Some "SHORT_ANSWER") None
                          (Some "Plants turn light into food.")
                          (Some ["chlorophyll"; "glucose"]) None)
           "Plants turn light into food.");
    [reflexivity | reflexivity | discriminate].
Defined.

(** ** The MCQ self-test *)

Lemma normal_form_upper_letter (c : ascii) :
  PyStr.is_upper c = true ->
  PyStr.strip (PyStr.upper (String c "")) = String c "".
Proof.
  intros H.
  assert (PyStr.char_upper c = c) as Hc.
  { unfold PyStr.char_upper.
    assert (PyStr.is_lower c = false) as ->; [| reflexivity].
    unfold PyStr.is_upper, PyStr.is_lower in *. lia. }
  cbn [PyStr.upper PyStr.map_chars]. rewrite Hc.
  apply (strip_padded_char "" "" c); [reflexivity | reflexivity |].
  apply letter_not_space. unfold PyStr.is_letter. rewrite H. apply orb_true_r.
Qed.

Lemma check_mcq_well_formed (sim : string -> string -> Q) (q : Question)
      (c : ascii) (correct total : nat) :
  question_type q = Some "MCQ" ->
  correct_answer q = Some (String c "") ->
  PyStr.is_upper c = true ->
  check_mcq sim (correct, total) q = (S (S correct), S total).
Proof.
  intros Ht Hca Hc. unfold check_mcq. rewrite Hca.
  cbn [default from_option id].
  rewrite !(evaluate_mcq sim q _ Ht). cbn [get_is_correct].
  unfold _evaluate_mcq. cbn [is_correct]. rewrite Hca.
  cbn [default from_option id].
  rewrite (normal_form_upper_letter c Hc), String.eqb_refl.
  destruct (bool_decide_reflect (String c "" <> "B")) as [Hb | Hb].
  - change (PyStr.strip (PyStr.upper "B")) with "B".
    destruct (String.eqb_spec "B" (String c "")) as [E | _];
      [congruence | reflexivity].
  - assert (String c "" = "B") as -> by (destruct (decide (String c "" = "B")); tauto).
    reflexivity.
Qed.

Lemma check_mcq_loop (sim : string -> string -> Q) (l : list Question)
      (correct total : nat) :
  Forall (fun q => question_type q = Some "MCQ"
                   /\ exists c, correct_answer q = Some (String c "")
                                /\ PyStr.is_upper c = true) l ->
  fold_left (check_mcq sim) l (correct, total)
  = ((correct + 2 * length l)%nat, (total + length l)%nat).
Proof.
  intros Hall. revert correct total.
  induction Hall as [| q l (Ht & c & Hca & Hc) _ IH]; intros correct total.
  - simpl. f_equal; lia.
  - cbn [fold_left]. rewrite (check_mcq_well_formed sim q c _ _ Ht Hca Hc), IH.
    simpl. f_equal; lia.
Qed.

(** X22: the MCQ self-test of the training scripts passes on well-formed
    data: when the correct answer of every MCQ question is one upper-case
    letter, both checks succeed on each of the (at most 50) questions
    tested, and the reported accuracy is 100, or 0 when there is no MCQ
    question. *)
Theorem mcq_self_test_passes
        (sim : string -> string -> Q) (test_questions : list Question) :
  Forall (fun q => question_type q = Some "MCQ" ->
                   exists c, correct_answer q = Some (String c "")
                             /\ PyStr.is_upper c = true) test_questions ->
  exists (n : nat) (accuracy : Q),
    evaluate_mcq_grading sim test_questions = (n, (2 * n)%nat, accuracy)
    /\ n = min 50 (length (filter (fun q => question_type q = Some "MCQ")
                                  test_questions))
    /\ ((0 < n)%nat -> accuracy == 100)
    /\ (n = 0%nat -> accuracy == 0).
Proof.
  intros Hall. unfold evaluate_mcq_grading.
  set (mcq := take 50 (filter (fun q => question_type q = Some "MCQ")
                              test_questions)).
  assert (Forall (fun q => question_type q = Some "MCQ"
                   /\ exists c, correct_answer q = Some (String c "")
                                /\ PyStr.is_upper c = true) mcq) as Hmcq.
  { apply Forall_forall. intros q Hq.
    assert (q ∈ filter (fun q => question_type q = Some "MCQ") test_questions)
      as Hin by (eapply elem_of_sublist; [exact Hq | apply sublist_take]).
    apply list_elem_of_filter in Hin as [Ht Hin].
    split; [exact Ht |]. rewrite Forall_forall in Hall. apply (Hall q Hin Ht). }
  rewrite (check_mcq_loop sim mcq _ _ Hmcq).
  exists (length mcq). eexists. split; [reflexivity |].
  split; [unfold mcq; apply length_take |].
  cbn [Nat.add]. split.
  - intros Hpos.
    assert ((0 <? length mcq + length mcq)%nat = true) as -> by lia.
    assert (Qnat (2 * length mcq) / Qnat (length mcq + length mcq) * 100 == 100)
      as E.
    { assert (0 < Qnat (length mcq + length mcq)) by (apply Qnat_pos; lia).
      replace (2 * length mcq)%nat with (length mcq + length mcq)%nat by lia.
      field. lra. }
    unfold round2.
    rewrite (round_half_even_comp _ (inject_Z 10000)).
    + rewrite round_half_even_Z. reflexivity.
    + rewrite E. reflexivity.
  - intros ->. reflexivity.
Qed.

Lemma mcq_self_test_passes_witness :
  exists (n : nat) (accuracy : Q),
    evaluate_mcq_grading NLP._simple_similarity
      [make_question (Some "MCQ") (Some "B") None None None;
       make_question (Some "SHORT_ANSWER") None (Some "text") None None;
       make_question (Some "MCQ") (Some "D") None None None]
    = (n, (2 * n)%nat, accuracy)
    /\ n = 2%nat
    /\ ((0 < n)%nat -> accuracy == 100)
    /\ (n = 0%nat -> accuracy == 0).
Proof.
  apply (mcq_self_test_passes NLP._simple_similarity
           [make_question (Some "MCQ") (Some "B") None None None;
            make_question (Some "SHORT_ANSWER") None (Some "text") None None;
            make_question (Some "MCQ") (Some "D") None None None]).
  repeat constructor; intros H; try discriminate H;
    eexists; split; reflexivity.
Defined.
